(** * The framed JSON command server of TCP_loan_server.py

    A shallow embedding of the server: the loan arithmetic
    ([calculate_payments]), the frame codec ([read_frame], [write_frame]),
    the key-value store ([KVStore]) and the per-connection loop
    ([handle_client]) with its command dispatch.

    Python objects that travel through the server are the values produced by
    [json.loads]; exceptions are values of [exn] carried by the [result]
    monad; Python floats are the kernel's binary64 floats. *)

From Stdlib Require Import ZArith NArith List String Ascii Bool Lia.
From Stdlib Require Import DecimalString Floats.
From Stdlib Require Strings.Byte.
Import ListNotations.

Set Warnings "-register-all".
Local Open Scope string_scope.

(** ** Exceptions and results *)

(** The exception classes the server can meet.  [OtherError cls msg] stands
    for any other subclass of [Exception]. *)
Inductive exn : Type :=
| KeyError (key : string)
| AttributeError (msg : string)
| TypeError (msg : string)
| ValueError (msg : string)
| ZeroDivisionError (msg : string)
| OverflowError (msg : string)
| StructError (msg : string)
| IncompleteReadError
| TimeoutError
| OtherError (cls msg : string).

Inductive result (A : Type) : Type :=
| Return (a : A)
| Raise (e : exn).
Arguments Return {A} a.
Arguments Raise {A} e.

Definition bind {A B : Type} (m : result A) (k : A -> result B) : result B :=
  match m with
  | Return a => k a
  | Raise e => Raise e
  end.

Declare Scope py_scope.
Delimit Scope py_scope with py.
Notation "x <- m ;; k" := (bind m (fun x => k))
  (at level 61, m at next level, right associativity) : py_scope.

(** [str(e)]: a [KeyError] prints the repr of its key (the keys raised here
    are plain identifiers, whose repr is the key between single quotes);
    the other classes print their message. *)
Definition str_exn (e : exn) : string :=
  match e with
  | KeyError k => "'" ++ k ++ "'"
  | AttributeError m | TypeError m | ValueError m | ZeroDivisionError m
  | OverflowError m | StructError m | OtherError _ m => m
  | IncompleteReadError => "incomplete read"
  | TimeoutError => ""
  end.

(** ** Python values *)

(** What [json.loads] builds: [None], [bool], [int], [float], [str], [list]
    and [dict] (string keys, insertion order kept). *)
Inductive value : Type :=
| VNone
| VBool (b : bool)
| VInt (z : Z)
| VFloat (f : float)
| VStr (s : string)
| VList (l : list value)
| VDict (d : list (string * value)).

Definition type_name (v : value) : string :=
  match v with
  | VNone => "NoneType"
  | VBool _ => "bool"
  | VInt _ => "int"
  | VFloat _ => "float"
  | VStr _ => "str"
  | VList _ => "list"
  | VDict _ => "dict"
  end.

(** Truth value of an object, as [or] and [if] test it. *)
Definition truthy (v : value) : bool :=
  match v with
  | VNone => false
  | VBool b => b
  | VInt z => negb (z =? 0)%Z
  | VFloat f => negb (f =? 0)%float
  | VStr s => negb (s =? "")
  | VList l => match l with [] => false | _ => true end
  | VDict d => match d with [] => false | _ => true end
  end.

(** [a or b] *)
Definition py_or (a b : value) : value := if truthy a then a else b.

(** [v is None] *)
Definition is_None (v : value) : bool :=
  match v with VNone => true | _ => false end.

(** ** Dictionaries

    A Python [dict] keeps its keys unique and in insertion order: assigning
    to a key that is there replaces its value in place, a new key goes last. *)
Section Dict.
Context {V : Type}.

Definition dict := list (string * V).

(** [d.get(k)] as an option: the value under [k], if any *)
Fixpoint dict_lookup (d : dict) (k : string) : option V :=
  match d with
  | [] => None
  | (k', v) :: d' => if k' =? k then Some v else dict_lookup d' k
  end.

(** [k in d] *)
Definition dict_contains (d : dict) (k : string) : bool :=
  match dict_lookup d k with Some _ => true | None => false end.

(** [d[k] = v] *)
Fixpoint dict_setitem (d : dict) (k : string) (v : V) : dict :=
  match d with
  | [] => [(k, v)]
  | (k', v') :: d' =>
      if k' =? k then (k', v) :: d' else (k', v') :: dict_setitem d' k v
  end.

(** the dictionary left by [d.pop(k, default)] *)
Fixpoint dict_remove (d : dict) (k : string) : dict :=
  match d with
  | [] => []
  | (k', v') :: d' => if k' =? k then d' else (k', v') :: dict_remove d' k
  end.

(** [list(d.keys())] *)
Definition dict_keys (d : dict) : list string := map fst d.

(** A dict holds a key once: the invariant every Python dict has. *)
Definition unique_keys (d : dict) : Prop := NoDup (dict_keys d).
End Dict.
Arguments dict V : clear implicits.

(** [d.get(k)]: the value under [k], or [None] *)
Definition dict_get (d : dict value) (k : string) : value :=
  match dict_lookup d k with Some v => v | None => VNone end.

(** [d[k]] *)
Definition dict_getitem (d : dict value) (k : string) : result value :=
  match dict_lookup d k with Some v => Return v | None => Raise (KeyError k) end.

(** [d.pop(k, None)]: the value handed back and the dictionary left *)
Definition dict_pop (d : dict value) (k : string) : value * dict value :=
  (dict_get d k, dict_remove d k).

(** Attribute lookup [req.get]: of the values [json.loads] builds only a
    dict has a [get] method. *)
Definition attr_get (req : value) : result (dict value) :=
  match req with
  | VDict d => Return d
  | _ => Raise (AttributeError
                  ("'" ++ type_name req ++ "' object has no attribute 'get'"))
  end.

(** ** Strings *)

Fixpoint string_map (f : ascii -> ascii) (s : string) : string :=
  match s with
  | EmptyString => EmptyString
  | String c s' => String (f c) (string_map f s')
  end.

Fixpoint string_forallb (p : ascii -> bool) (s : string) : bool :=
  match s with
  | EmptyString => true
  | String c s' => p c && string_forallb p s'
  end.

Definition is_ascii (c : ascii) : bool := (N_of_ascii c <? 128)%N.

(** Upper case of an ASCII character: [a]..[z] move to [A]..[Z]. *)
Definition ascii_upper (c : ascii) : ascii :=
  let n := N_of_ascii c in
  if ((97 <=? n) && (n <=? 122))%N then ascii_of_N (n - 32) else c.

(** ** Floats *)

(** [float(z)] for an int: the nearest binary64 value, ties to even;
    an int beyond the range of floats raises [OverflowError]. *)
Definition float_of_int (z : Z) : result float :=
  match binary_normalize prec emax z 0 false with
  | S754_infinity _ => Raise (OverflowError "int too large to convert to float")
  | sf => Return (SF2Prim sf)
  end.

(** [int(f)] for a float: truncation toward zero. *)
Definition int_of_float (f : float) : result Z :=
  match Prim2SF f with
  | S754_nan => Raise (ValueError "cannot convert float NaN to integer")
  | S754_infinity _ =>
      Raise (OverflowError "cannot convert float infinity to integer")
  | S754_zero _ => Return 0%Z
  | S754_finite s m e =>
      let a := Z.shiftl (Zpos m) e in
      Return (if s then (- a)%Z else a)
  end.

(** [a / b] on floats: a zero divisor raises. *)
Definition float_div (a b : float) : result float :=
  if (b =? 0)%float then Raise (ZeroDivisionError "float division by zero")
  else Return (a / b)%float.

(** The float nearest to [n / d] (ties to even), negated when [neg].  The
    quotient is taken with two bits more than the precision and a sticky
    bit, which is enough for [binary_normalize] to round correctly. *)
Definition SF_of_ratio (neg : bool) (n d : positive) : spec_float :=
  let k := Z.max 0 (55 + Z.log2 (Zpos d) - Z.log2 (Zpos n)) in
  let num := Z.shiftl (Zpos n) k in
  let q := (num / Zpos d)%Z in
  let sticky := if (num mod Zpos d =? 0)%Z then 0%Z else 1%Z in
  let m := (2 * q + sticky)%Z in
  binary_normalize prec emax (if neg then (- m)%Z else m) (- (k + 1)) neg.

(** [round(x, ndigits)] for [0 <= ndigits]: the exact value of [x] is
    rounded to [ndigits] decimal places, ties to even, and the decimal
    obtained is converted back to the nearest float.  NaN, the infinities
    and the zeros round to themselves. *)
Definition float_round (x : float) (ndigits : N) : float :=
  match Prim2SF x with
  | S754_finite s m e =>
      let p10 := (10 ^ Z.of_N ndigits)%Z in
      let num := (Z.shiftl (Zpos m) (Z.max 0 e) * p10)%Z in
      let den := Z.shiftl 1 (Z.max 0 (- e)) in
      let q := (num / den)%Z in
      let r := (num mod den)%Z in
      let n := match (2 * r ?= den)%Z with
               | Lt => q
               | Gt => (q + 1)%Z
               | Eq => if Z.even q then q else (q + 1)%Z
               end in
      match n, p10 with
      | Zpos n', Zpos d' => SF2Prim (SF_of_ratio s n' d')
      | _, _ => if s then neg_zero else zero
      end
  | _ => x
  end.

(** ** The Python runtime

    Library functions the server calls and this development leaves
    abstract.  Every statement below holds for all of them. *)
Class PyRuntime : Type := {
  (** [json.dumps(v, separators=(",", ":")).encode("utf-8")] *)
  json_dumps : value -> list Byte.byte;
  (** [json.loads(data.decode("utf-8"))] *)
  json_loads : list Byte.byte -> result value;
  (** [s.upper()] for a string with a character outside ASCII *)
  unicode_upper : string -> string;
  (** [str(v)] for a float, a list or a dict *)
  repr_other : value -> string;
  (** [float(s)] for a string *)
  float_of_str : string -> result float;
  (** [int(s)] for a string *)
  int_of_str : string -> result Z;
  (** [x ** n] for a float [x] and an int [n] *)
  float_pow : float -> Z -> result float
}.

Section Conversions.
Context {rt : PyRuntime}.

(** [s.upper()]: decided here on ASCII strings, the runtime's otherwise *)
Definition str_upper (s : string) : string :=
  if string_forallb is_ascii s then string_map ascii_upper s
  else unicode_upper s.

(** [v.upper()]: only a [str] has the method *)
Definition method_upper (v : value) : result string :=
  match v with
  | VStr s => Return (str_upper s)
  | _ => Raise (AttributeError
                  ("'" ++ type_name v ++ "' object has no attribute 'upper'"))
  end.

(** [str(v)] *)
Definition py_str (v : value) : string :=
  match v with
  | VStr s => s
  | VNone => "None"
  | VBool true => "True"
  | VBool false => "False"
  | VInt z => NilZero.string_of_int (Z.to_int z)
  | VFloat _ | VList _ | VDict _ => repr_other v
  end.

(** [float(v)] *)
Definition py_float (v : value) : result float :=
  match v with
  | VFloat f => Return f
  | VInt z => float_of_int z
  | VBool b => Return (if b then 1 else 0)%float
  | VStr s => float_of_str s
  | VNone | VList _ | VDict _ =>
      Raise (TypeError
               ("float() argument must be a string or a real number, not '"
                  ++ type_name v ++ "'"))
  end.

(** [int(v)] *)
Definition py_int (v : value) : result Z :=
  match v with
  | VInt z => Return z
  | VBool b => Return (if b then 1 else 0)%Z
  | VFloat f => int_of_float f
  | VStr s => int_of_str s
  | VNone | VList _ | VDict _ =>
      Raise (TypeError
               ("int() argument must be a string, a bytes-like object or a real number, not '"
                  ++ type_name v ++ "'"))
  end.
End Conversions.

(** ** Loan math *)

Section LoanMath.
Context {rt : PyRuntime}.
Local Open Scope py_scope.

(** [calculate_payments(loan_amount, years, annual_rate)]: the monthly and
    the total payment.  An int operand of a float operation is converted
    to a float first. *)
Definition calculate_payments (loan_amount : float) (years : Z)
    (annual_rate : float) : result (float * float) :=
  let monthly_rate := ((annual_rate / 100) / 12)%float in
  let total_payments := (years * 12)%Z in
  monthly_payment <-
    (if (monthly_rate =? 0)%float then
       n <- float_of_int total_payments ;;
       float_div loan_amount n
     else
       let num := (loan_amount * monthly_rate)%float in
       inv <- float_div 1 (1 + monthly_rate)%float ;;
       p <- float_pow inv total_payments ;;
       float_div num (1 - p)%float) ;;
  n <- float_of_int total_payments ;;
  let total_payment := (monthly_payment * n)%float in
  Return (float_round monthly_payment 2, float_round total_payment 2).
End LoanMath.

(** ** Server core: the key-value store *)

(** A response is the dict the server hands to [write_frame]. *)
Definition ok_response (fields : dict value) : value :=
  VDict (("ok", VBool true) :: fields).

Definition error_response (msg : string) : value :=
  VDict [("ok", VBool false); ("error", VStr msg)].

(** [KVStore]: the state is the dict [_data]; a method returns its response
    and the state it leaves.  The lock makes each method run without
    interleaving, so a method is a function of the state. *)
Module KVStore.
Definition t : Type := dict value.

(** [KVStore()] *)
Definition init : t := [].

Definition set (data : t) (key : string) (v : value) : value * t :=
  (ok_response [], dict_setitem data key v).

Definition get (data : t) (key : string) : value * t :=
  match dict_lookup data key with
  | None => (error_response "not found", data)
  | Some v => (ok_response [("value", v)], data)
  end.

Definition delete (data : t) (key : string) : value * t :=
  let (popped, data') := dict_pop data key in
  let existed := negb (is_None popped) in
  (ok_response [("deleted", VBool existed)], data').

Definition keys (data : t) : value * t :=
  (ok_response [("keys", VList (map VStr (dict_keys data)))], data).

Definition clear (data : t) : value * t :=
  (ok_response [], []).
End KVStore.

(** ** Server core: command dispatch *)

Section Dispatch.
Context {rt : PyRuntime}.
Local Open Scope py_scope.

(** The body of the [try] of the LOAN branch. *)
Definition loan (req : dict value) : result value :=
  let username := py_str (py_or (dict_get req "username") (VStr "")) in
  v1 <- dict_getitem req "loan_amount" ;;
  loan_amount <- py_float v1 ;;
  v2 <- dict_getitem req "years" ;;
  years <- py_int v2 ;;
  v3 <- dict_getitem req "annual_rate" ;;
  annual_rate <- py_float v3 ;;
  pay <- calculate_payments loan_amount years annual_rate ;;
  Return (ok_response [("monthly_payment", VFloat (fst pay));
                       ("total_payment", VFloat (snd pay))]).

(** The LOAN branch: [except KeyError], then [except Exception]. *)
Definition loan_response (req : dict value) : value :=
  match loan req with
  | Return response => response
  | Raise (KeyError k) =>
      error_response ("missing field: " ++ str_exn (KeyError k))
  | Raise e => error_response (str_exn e)
  end.

(** [cmd = (req.get("cmd") or "").upper()] *)
Definition command_of (req : value) : result (dict value * string) :=
  d <- attr_get req ;;
  cmd <- method_upper (py_or (dict_get d "cmd") (VStr "")) ;;
  Return (d, cmd).

(** The dispatch step of [handle_client]: from the decoded request to the
    response, on the shared store.  An exception that leaves it is not
    caught by the loop. *)
Definition dispatch (req : value) (store : KVStore.t)
    : result value * KVStore.t :=
  match command_of req with
  | Raise e => (Raise e, store)
  | Return (d, cmd) =>
      if cmd =? "PING" then
        (Return (ok_response [("reply", VStr "PONG")]), store)
      else if cmd =? "LOAN" then
        (Return (loan_response d), store)
      else if cmd =? "SET" then
        let key := dict_get d "key" in
        if is_None key || negb (dict_contains d "value") then
          (Return (error_response "SET requires 'key' and 'value'"), store)
        else
          match dict_getitem d "value" with
          | Raise e => (Raise e, store)
          | Return v =>
              let (response, store') := KVStore.set store (py_str key) v in
              (Return response, store')
          end
      else if cmd =? "GET" then
        let key := dict_get d "key" in
        if is_None key then
          (Return (error_response "GET requires 'key'"), store)
        else
          let (response, store') := KVStore.get store (py_str key) in
          (Return response, store')
      else if cmd =? "DEL" then
        let key := dict_get d "key" in
        if is_None key then
          (Return (error_response "DEL requires 'key'"), store)
        else
          let (response, store') := KVStore.delete store (py_str key) in
          (Return response, store')
      else if cmd =? "KEYS" then
        let (response, store') := KVStore.keys store in
        (Return response, store')
      else if cmd =? "CLEAR" then
        let (response, store') := KVStore.clear store in
        (Return response, store')
      else
        (Return (error_response ("unknown cmd: " ++ cmd)), store)
  end.
End Dispatch.

(** ** Framing *)

Abbreviation byte := Byte.byte.

(** [HEADER = struct.Struct("!I")]: an unsigned 32-bit integer, big endian. *)
Module HEADER.
Definition size : nat := 4.

Definition byte_of_N (n : N) : byte :=
  match Byte.of_N (n mod 256) with
  | Some b => b
  | None => Byte.x00
  end.

Definition pack (n : N) : result (list byte) :=
  if (n <? 2 ^ 32)%N then
    Return [byte_of_N (n / 2 ^ 24); byte_of_N (n / 2 ^ 16);
            byte_of_N (n / 2 ^ 8); byte_of_N n]
  else
    Raise (StructError "'I' format requires 0 <= number <= 4294967295").

Definition unpack (hdr : list byte) : result N :=
  match hdr with
  | [b3; b2; b1; b0] =>
      Return (((Byte.to_N b3 * 256 + Byte.to_N b2) * 256 + Byte.to_N b1) * 256
              + Byte.to_N b0)%N
  | _ => Raise (StructError "unpack requires a buffer of 4 bytes")
  end.
End HEADER.

(** The read side of a connection: the bytes the peer sends, in order, and
    what it does once they are used up.  A peer that closed makes a read
    that needs more bytes raise [IncompleteReadError]; a peer that stays
    silent makes the read wait until [wait_for] gives up on it. *)
Inductive ending : Type := PeerClosed | PeerSilent.

Record reader : Type := Reader {
  pending : list byte;
  at_end : ending
}.

(** [await reader.readexactly(n)], under the [wait_for] of the loop. *)
Definition readexactly (n : N) (rd : reader) : result (list byte) * reader :=
  if (n <=? N.of_nat (List.length (pending rd)))%N then
    (Return (firstn (N.to_nat n) (pending rd)),
     Reader (skipn (N.to_nat n) (pending rd)) (at_end rd))
  else
    match at_end rd with
    | PeerClosed => (Raise IncompleteReadError, Reader [] PeerClosed)
    | PeerSilent => (Raise TimeoutError, rd)
    end.

Section Framing.
Context {rt : PyRuntime}.

(** [read_frame(reader)] of the server *)
Definition read_frame (rd : reader) : result value * reader :=
  match readexactly (N.of_nat HEADER.size) rd with
  | (Raise e, rd1) => (Raise e, rd1)
  | (Return hdr, rd1) =>
      match HEADER.unpack hdr with
      | Raise e => (Raise e, rd1)
      | Return length =>
          if (length <? 0)%N || (10000000 <? length)%N then
            (Raise (ValueError "invalid frame length"), rd1)
          else
            match readexactly length rd1 with
            | (Raise e, rd2) => (Raise e, rd2)
            | (Return data, rd2) => (json_loads data, rd2)
            end
      end
  end.

(** [read_frame(reader)] of the client: the same without the length
    check *)
Definition client_read_frame (rd : reader) : result value * reader :=
  match readexactly (N.of_nat HEADER.size) rd with
  | (Raise e, rd1) => (Raise e, rd1)
  | (Return hdr, rd1) =>
      match HEADER.unpack hdr with
      | Raise e => (Raise e, rd1)
      | Return length =>
          match readexactly length rd1 with
          | (Raise e, rd2) => (Raise e, rd2)
          | (Return data, rd2) => (json_loads data, rd2)
          end
      end
  end.

(** [write_frame(writer, payload)]: the bytes handed to the writer *)
Definition write_frame (payload : value) : result (list byte) :=
  let data := json_dumps payload in
  bind (HEADER.pack (N.of_nat (List.length data))) (fun hdr => Return (hdr ++ data)%list).
End Framing.

(** ** The connection handler

    The writer takes every write and the logger every record: a failure of
    the socket or of the log file is outside the model. *)

Definition peername : Type := string * Z.

(** A line of the log, without its time stamp. *)
Inductive log_record : Type :=
| LogTimeout (peer : peername) (response : value)
| LogReadError (peer : peername) (error : string)
| LogExchange (peer : peername) (request response : value).

(** What the handler does to the outside, in order: bytes given to the
    writer, a record given to the logger, the writer closed. *)
Inductive effect : Type :=
| Write (data : list byte)
| Log (record : log_record)
| Close.

(** How a handler ends: its loop was left by [break], or an exception went
    through it.  [OutOfFuel] is the model's only: the loop below is cut
    after [fuel] rounds. *)
Inductive outcome : Type :=
| Finished
| Uncaught (e : exn)
| OutOfFuel.

Section Handler.
Context {rt : PyRuntime}.

Definition idle_response : value := error_response "idle timeout".

(** The [while True] loop of [handle_client], with a logger that takes
    every record; [client_loop_logging] is the loop with a logger whose
    append may raise. *)
Fixpoint client_loop (fuel : nat) (peer : peername) (rd : reader)
    (store : KVStore.t) : list effect * KVStore.t * outcome :=
  match fuel with
  | O => ([], store, OutOfFuel)
  | S fuel' =>
      match read_frame rd with
      | (Raise TimeoutError, _) =>
          match write_frame idle_response with
          | Raise e => ([], store, Uncaught e)
          | Return data =>
              ([Write data; Log (LogTimeout peer idle_response)],
               store, Finished)
          end
      | (Raise IncompleteReadError, _) => ([], store, Finished)
      | (Raise e, rd') =>
          let resp := error_response (str_exn e) in
          match write_frame resp with
          | Raise e' => ([], store, Uncaught e')
          | Return data =>
              let '(effects, store', out) :=
                client_loop fuel' peer rd' store in
              (Write data :: Log (LogReadError peer (str_exn e)) :: effects,
               store', out)
          end
      | (Return req, rd') =>
          match dispatch req store with
          | (Raise e, store') => ([], store', Uncaught e)
          | (Return response, store') =>
              match write_frame response with
              | Raise e => ([], store', Uncaught e)
              | Return data =>
                  let '(effects, store'', out) :=
                    client_loop fuel' peer rd' store' in
                  (Write data :: Log (LogExchange peer req response)
                     :: effects,
                   store'', out)
              end
          end
      end
  end.

(** [handle_client]: the loop, then the [finally] that closes the writer.
    A round that goes on has read a header, so the loop makes at most one
    round per pending byte and one more. *)
Definition handle_client (peer : peername) (rd : reader)
    (store : KVStore.t) : list effect * KVStore.t * outcome :=
  let '(effects, store', out) :=
    client_loop (S (List.length (pending rd))) peer rd store in
  ((effects ++ [Close])%list, store', out).
End Handler.

(** ** A reference runtime

    An instance of [PyRuntime] to run the model on examples.  It reads and
    prints JSON as CPython does on ASCII text; characters outside ASCII
    are copied as they are and [\u] escapes above 7F are refused.  Its
    [float_pow] rounds the exact power once, where CPython calls the C
    library.  The theorems below hold for every runtime and do not depend
    on it. *)
Module Ref.
Local Open Scope Z_scope.

Definition text_of_Z (z : Z) : string := NilZero.string_of_int (Z.to_int z).

Definition digit_of (c : ascii) : option Z :=
  let n := Z.of_N (N_of_ascii c) in
  if (48 <=? n) && (n <=? 57) then Some (n - 48) else None.

Definition is_digit (c : ascii) : bool :=
  match digit_of c with Some _ => true | None => false end.

Fixpoint take_digits (s : list ascii) : list ascii * list ascii :=
  match s with
  | c :: s' =>
      if is_digit c then let (ds, r) := take_digits s' in (c :: ds, r)
      else ([], s)
  | [] => ([], [])
  end.

Definition Z_of_digits (ds : list ascii) : Z :=
  fold_left (fun a c => 10 * a + match digit_of c with Some d => d | None => 0 end)
            ds 0.

(** The float nearest to [n * 10 ^ e10], for [0 <= n]. *)
Definition float_of_decimal (neg : bool) (n e10 : Z) : float :=
  match n with
  | Zpos p =>
      if 0 <=? e10 then
        SF2Prim (SF_of_ratio neg (Z.to_pos (n * 10 ^ e10)) 1)
      else SF2Prim (SF_of_ratio neg p (Z.to_pos (10 ^ (- e10))))
  | _ => if neg then neg_zero else zero
  end.

(** *** Printing a float: the shortest decimal that reads back *)

(** The largest [e] with [10 ^ e <= n / d], searched from [guess] down
    and up. *)
Fixpoint log10_up (fuel : nat) (n d e : Z) : Z :=
  match fuel with
  | O => e
  | S fuel' =>
      if (if 0 <=? e + 1 then d * 10 ^ (e + 1) <=? n
          else d <=? n * 10 ^ (- (e + 1)))
      then log10_up fuel' n d (e + 1) else e
  end.

Fixpoint log10_down (fuel : nat) (n d e : Z) : Z :=
  match fuel with
  | O => e
  | S fuel' =>
      if (if 0 <=? e then d * 10 ^ e <=? n else d <=? n * 10 ^ (- e))
      then e else log10_down fuel' n d (e - 1)
  end.

Definition floor_log10 (n d : Z) : Z :=
  let guess := ((Z.log2 n - Z.log2 d) * 3 / 10) in
  log10_up 8 n d (log10_down 8 n d guess).

(** The digits and the decimal exponent of the shortest decimal
    [0.d1d2... * 10 ^ decpt] that rounds to the positive float [m * 2 ^ e],
    the nearest to it among the shortest. *)
Fixpoint shortest_from (fuel : nat) (k : Z) (x : float) (n d e10 : Z)
    : Z * Z :=
  let s := e10 - k + 1 in
  let lo := if 0 <=? s then n / (d * 10 ^ s) else (n * 10 ^ (- s)) / d in
  let hi := lo + 1 in
  let back c := float_of_decimal false c s in
  let twice_mid_le :=
    (* is [x] at most the middle of [lo] and [hi] ? *)
    if 0 <=? s then 2 * n <=? (2 * lo + 1) * d * 10 ^ s
    else 2 * n * 10 ^ (- s) <=? (2 * lo + 1) * d in
  let ok_lo := (back lo =? x)%float in
  let ok_hi := (back hi =? x)%float in
  let pick c := (c, s) in
  match fuel with
  | O => pick lo
  | S fuel' =>
      if ok_lo && ok_hi then (if twice_mid_le then pick lo else pick hi)
      else if ok_lo then pick lo
      else if ok_hi then pick hi
      else shortest_from fuel' (k + 1) x n d e10
  end.

Fixpoint strip_zeros (c : Z) (s : Z) (fuel : nat) : Z * Z :=
  match fuel with
  | O => (c, s)
  | S fuel' =>
      if (c mod 10 =? 0) && negb (c =? 0) then strip_zeros (c / 10) (s + 1) fuel'
      else (c, s)
  end.

Fixpoint zeros (n : nat) : string :=
  match n with O => "" | S n' => String "0"%char (zeros n') end.

(** [repr] of a finite positive float from its digits [c] and the
    exponent [s] of its last digit: plain notation when the decimal point
    falls within [-4, 16), scientific notation otherwise. *)
Definition layout (c s : Z) : string :=
  let ds := text_of_Z c in
  let nd := Z.of_nat (String.length ds) in
  let decpt := nd + s in
  if (- 4 <? decpt) && (decpt <=? 16) then
    if 0 <=? s then (ds ++ zeros (Z.to_nat s) ++ ".0")%string
    else if 0 <? decpt then
      (substring 0 (Z.to_nat decpt) ds ++ "."
         ++ substring (Z.to_nat decpt) (Z.to_nat (- s)) ds)%string
    else ("0." ++ zeros (Z.to_nat (- decpt)) ++ ds)%string
  else
    let e := decpt - 1 in
    let mant :=
      if nd =? 1 then ds
      else (substring 0 1 ds ++ "." ++ substring 1 (Z.to_nat (nd - 1)) ds)%string in
    let ae := text_of_Z (Z.abs e) in
    (mant ++ "e" ++ (if (e <? 0)%Z then "-" else "+")
       ++ (if (Z.abs e <? 10)%Z then "0" else "") ++ ae)%string.

(** [repr(f)] *)
Definition float_repr (f : float) : string :=
  match Prim2SF f with
  | S754_nan => "nan"
  | S754_infinity s => if s then "-inf" else "inf"
  | S754_zero s => if s then "-0.0" else "0.0"
  | S754_finite sg m e =>
      let n := Z.shiftl (Zpos m) (Z.max 0 e) in
      let d := Z.shiftl 1 (Z.max 0 (- e)) in
      let x := abs f in
      let (c, s) := shortest_from 17 1 x n d (floor_log10 n d) in
      let (c', s') := strip_zeros c s 20 in
      ((if sg then "-" else "") ++ layout c' s')%string
  end.

(** The text [json.dumps] gives a float. *)
Definition float_json (f : float) : string :=
  match Prim2SF f with
  | S754_nan => "NaN"
  | S754_infinity s => if s then "-Infinity" else "Infinity"
  | _ => float_repr f
  end.
(** *** Printing JSON *)

Definition hex_digit (n : N) : ascii :=
  ascii_of_N (if (n <? 10)%N then 48 + n else 87 + n).

(** A character inside a JSON string. *)
Definition escape_char (c : ascii) : string :=
  let n := N_of_ascii c in
  if (n =? 34)%N then String "\"%char (String c "")
  else if (n =? 92)%N then "\\"
  else if (n =? 10)%N then "\n"
  else if (n =? 13)%N then "\r"
  else if (n =? 9)%N then "\t"
  else if (n =? 8)%N then "\b"
  else if (n =? 12)%N then "\f"
  else if ((n <? 32) || (n =? 127))%N then
    ("\u00" ++ String (hex_digit (n / 16)) (String (hex_digit (n mod 16)) ""))%string
  else String c "".

Fixpoint escape (s : string) : string :=
  match s with
  | EmptyString => ""
  | String c s' => (escape_char c ++ escape s')%string
  end.

Definition quote (s : string) : string :=
  (String (ascii_of_N 34) (escape s) ++ String (ascii_of_N 34) "")%string.

(** [json.dumps(v, separators=(",", ":"))] *)
Fixpoint dumps (v : value) : string :=
  match v with
  | VNone => "null"
  | VBool true => "true"
  | VBool false => "false"
  | VInt z => text_of_Z z
  | VFloat f => float_json f
  | VStr s => quote s
  | VList l =>
      ("[" ++ (fix items (l : list value) : string :=
                 match l with
                 | [] => ""
                 | x :: l' =>
                     match l' with
                     | [] => dumps x
                     | _ => dumps x ++ "," ++ items l'
                     end
                 end) l ++ "]")%string
  | VDict d =>
      ("{" ++ (fix members (d : list (string * value)) : string :=
                 match d with
                 | [] => ""
                 | (k, x) :: d' =>
                     match d' with
                     | [] => quote k ++ ":" ++ dumps x
                     | _ => quote k ++ ":" ++ dumps x ++ "," ++ members d'
                     end
                 end) d ++ "}")%string
  end.

(** *** Reading JSON *)

Definition is_space (c : ascii) : bool :=
  let n := N_of_ascii c in
  ((n =? 32) || (n =? 9) || (n =? 10) || (n =? 13))%N.

Fixpoint skip_ws (s : list ascii) : list ascii :=
  match s with
  | c :: s' => if is_space c then skip_ws s' else s
  | [] => []
  end.

Definition hex_value (c : ascii) : option N :=
  let n := N_of_ascii c in
  if ((48 <=? n) && (n <=? 57))%N then Some (n - 48)%N
  else if ((97 <=? n) && (n <=? 102))%N then Some (n - 87)%N
  else if ((65 <=? n) && (n <=? 70))%N then Some (n - 55)%N
  else None.

(** The characters of a string literal after its opening quote, and what
    follows the closing quote. *)
Fixpoint read_string (s : list ascii) : option (string * list ascii) :=
  match s with
  | [] => None
  | c :: s' =>
      let n := N_of_ascii c in
      if (n =? 34)%N then Some (""%string, s')
      else if (n <? 32)%N then None
      else if (n =? 92)%N then
        match s' with
        | e :: s'' =>
            let plain (c' : N) :=
              match read_string s'' with
              | Some (t, r) => Some (String (ascii_of_N c') t, r)
              | None => None
              end in
            let m := N_of_ascii e in
            if (m =? 34)%N then plain 34%N
            else if (m =? 92)%N then plain 92%N
            else if (m =? 47)%N then plain 47%N
            else if (m =? 98)%N then plain 8%N
            else if (m =? 102)%N then plain 12%N
            else if (m =? 110)%N then plain 10%N
            else if (m =? 114)%N then plain 13%N
            else if (m =? 116)%N then plain 9%N
            else if (m =? 117)%N then
              match s'' with
              | h3 :: h2 :: h1 :: h0 :: s3 =>
                  match hex_value h3, hex_value h2, hex_value h1, hex_value h0,
                        read_string s3 with
                  | Some 0%N, Some 0%N, Some a, Some b, Some (t, r) =>
                      if (a <? 8)%N then
                        Some (String (ascii_of_N (16 * a + b)) t, r)
                      else None
                  | _, _, _, _, _ => None
                  end
              | _ => None
              end
            else None
        | [] => None
        end
      else
        match read_string s' with
        | Some (t, r) => Some (String c t, r)
        | None => None
        end
  end.

(** A number: an optional minus sign, an integer part without leading
    zeros, then optionally a fraction and an exponent; an int when it has
    neither fraction nor exponent. *)
Definition read_number (s : list ascii) : option (value * list ascii) :=
  let (neg, s1) :=
    match s with
    | c :: t => if (N_of_ascii c =? 45)%N then (true, t) else (false, s)
    | [] => (false, s)
    end in
  let (ip, s2) :=
    match s1 with
    | c :: t => if (N_of_ascii c =? 48)%N then ([c], t) else take_digits s1
    | [] => ([], [])
    end in
  match ip with
  | [] => None
  | _ :: _ =>
      let (fp, s3) :=
        match s2 with
        | c :: t =>
            if (N_of_ascii c =? 46)%N then
              match take_digits t with
              | ([], _) => (None, s2)
              | (ds, r) => (Some ds, r)
              end
            else (None, s2)
        | [] => (None, s2)
        end in
      let (ex, s4) :=
        match s3 with
        | c :: t =>
            if ((N_of_ascii c =? 101) || (N_of_ascii c =? 69))%N then
              let (eneg, t') :=
                match t with
                | g :: u =>
                    if (N_of_ascii g =? 45)%N then (true, u)
                    else if (N_of_ascii g =? 43)%N then (false, u)
                    else (false, t)
                | [] => (false, t)
                end in
              match take_digits t' with
              | ([], _) => (None, s3)
              | (ds, r) =>
                  (Some (if eneg then - Z_of_digits ds else Z_of_digits ds), r)
              end
            else (None, s3)
        | [] => (None, s3)
        end in
      match fp, ex with
      | None, None =>
          let n := Z_of_digits ip in
          Some (VInt (if neg then - n else n), s4)
      | _, _ =>
          let fd := match fp with Some ds => ds | None => [] end in
          let e := match ex with Some e => e | None => 0 end in
          Some (VFloat (float_of_decimal neg (Z_of_digits (ip ++ fd))
                          (e - Z.of_nat (List.length fd))), s4)
      end
  end.

Definition starts_with (p : string) (s : list ascii) : option (list ascii) :=
  let l := list_ascii_of_string p in
  if list_eq_dec ascii_dec (firstn (List.length l) s) l
  then Some (skipn (List.length l) s) else None.

(** A JSON value at the head of [s], and what follows it. *)
Fixpoint read_value (fuel : nat) (s : list ascii)
    : option (value * list ascii) :=
  match fuel with
  | O => None
  | S fuel' =>
      let s := skip_ws s in
      match s with
      | [] => None
      | c :: r =>
          let n := N_of_ascii c in
          if (n =? 34)%N then
            match read_string r with
            | Some (t, r') => Some (VStr t, r')
            | None => None
            end
          else if (n =? 91)%N then
            match skip_ws r with
            | c' :: r' =>
                if (N_of_ascii c' =? 93)%N then Some (VList [], r')
                else read_items fuel' [] r
            | [] => None
            end
          else if (n =? 123)%N then
            match skip_ws r with
            | c' :: r' =>
                if (N_of_ascii c' =? 125)%N then Some (VDict [], r')
                else read_members fuel' [] r
            | [] => None
            end
          else
            match starts_with "null" s, starts_with "true" s,
                  starts_with "false" s, starts_with "NaN" s,
                  starts_with "Infinity" s, starts_with "-Infinity" s with
            | Some r', _, _, _, _, _ => Some (VNone, r')
            | _, Some r', _, _, _, _ => Some (VBool true, r')
            | _, _, Some r', _, _, _ => Some (VBool false, r')
            | _, _, _, Some r', _, _ => Some (VFloat nan, r')
            | _, _, _, _, Some r', _ => Some (VFloat infinity, r')
            | _, _, _, _, _, Some r' => Some (VFloat neg_infinity, r')
            | _, _, _, _, _, _ => read_number s
            end
      end
  end
with read_items (fuel : nat) (acc : list value) (s : list ascii)
    : option (value * list ascii) :=
  match fuel with
  | O => None
  | S fuel' =>
      match read_value fuel' s with
      | None => None
      | Some (v, r) =>
          match skip_ws r with
          | c :: r' =>
              if (N_of_ascii c =? 44)%N then read_items fuel' (v :: acc) r'
              else if (N_of_ascii c =? 93)%N then
                Some (VList (rev (v :: acc)), r')
              else None
          | [] => None
          end
      end
  end
with read_members (fuel : nat) (acc : dict value) (s : list ascii)
    : option (value * list ascii) :=
  match fuel with
  | O => None
  | S fuel' =>
      match skip_ws s with
      | q :: r =>
          if (N_of_ascii q =? 34)%N then
            match read_string r with
            | None => None
            | Some (k, r1) =>
                match skip_ws r1 with
                | c :: r2 =>
                    if (N_of_ascii c =? 58)%N then
                      match read_value fuel' r2 with
                      | None => None
                      | Some (v, r3) =>
                          match skip_ws r3 with
                          | c' :: r4 =>
                              if (N_of_ascii c' =? 44)%N then
                                read_members fuel' (dict_setitem acc k v) r4
                              else if (N_of_ascii c' =? 125)%N then
                                Some (VDict (dict_setitem acc k v), r4)
                              else None
                          | [] => None
                          end
                      end
                    else None
                | [] => None
                end
            end
          else None
      | [] => None
      end
  end.

(** [json.loads(text)] *)
Definition loads (text : string) : result value :=
  let s := list_ascii_of_string text in
  match read_value (2 * List.length s + 2) s with
  | Some (v, r) =>
      match skip_ws r with
      | [] => Return v
      | _ :: _ => Raise (ValueError "Extra data")
      end
  | None => Raise (ValueError "Expecting value")
  end.

(** *** Conversions and powers *)

Definition strip (s : list ascii) : list ascii :=
  rev (skip_ws (rev (skip_ws s))).

(** [float(s)], for plain decimal literals *)
Definition float_of_text (text : string) : result float :=
  let bad := Raise (ValueError
                      ("could not convert string to float: '" ++ text ++ "'")%string) in
  match read_number (strip (list_ascii_of_string text)) with
  | Some (VInt z, []) => float_of_int z
  | Some (VFloat f, []) => Return f
  | _ => bad
  end.

(** [int(s)], for plain decimal literals *)
Definition int_of_text (text : string) : result Z :=
  let bad := Raise (ValueError
                      ("invalid literal for int() with base 10: '" ++ text ++ "'")%string) in
  let s := strip (list_ascii_of_string text) in
  let (neg, ds) :=
    match s with
    | c :: t => if (N_of_ascii c =? 45)%N then (true, t)
                else if (N_of_ascii c =? 43)%N then (false, t) else (false, s)
    | [] => (false, s)
    end in
  match take_digits ds with
  | (_ :: _, []) => Return (if neg then - Z_of_digits ds else Z_of_digits ds)
  | _ => bad
  end.

(** [x ** n]: the exact power, rounded once. *)
Definition pow (x : float) (n : Z) : result float :=
  if n =? 0 then Return 1%float
  else
    match float_of_int n with
    | Raise e => Raise e
    | Return _ =>
        let odd := Z.odd n in
        match Prim2SF x with
        | S754_nan => Return nan
        | S754_zero s =>
            if n <? 0 then
              Raise (ZeroDivisionError "0.0 cannot be raised to a negative power")
            else Return (if s && odd then neg_zero else zero)
        | S754_infinity s =>
            Return (if n <? 0 then (if s && odd then neg_zero else zero)
                    else (if s && odd then neg_infinity else infinity))
        | S754_finite s m e =>
            let neg := s && odd in
            let a := Z.abs n in
            let ma := Zpos m ^ a in
            let r :=
              if 0 <? n then
                binary_normalize prec emax (if neg then - ma else ma) (e * a) neg
              else if 0 <=? e then
                SF_of_ratio neg 1 (Z.to_pos (ma * 2 ^ (e * a)))
              else SF_of_ratio neg (Z.to_pos (2 ^ (- e * a))) (Z.to_pos ma) in
            match r with
            | S754_infinity _ =>
                Raise (OverflowError "(34, 'Numerical result out of range')")
            | _ => Return (SF2Prim r)
            end
        end
    end.

(** [repr(v)], with strings between single quotes as they are *)
Fixpoint repr (v : value) : string :=
  match v with
  | VNone => "None"
  | VBool true => "True"
  | VBool false => "False"
  | VInt z => text_of_Z z
  | VFloat f => float_repr f
  | VStr s => ("'" ++ s ++ "'")%string
  | VList l =>
      ("[" ++ (fix items (l : list value) : string :=
                 match l with
                 | [] => ""
                 | x :: l' =>
                     match l' with
                     | [] => repr x
                     | _ => repr x ++ ", " ++ items l'
                     end
                 end) l ++ "]")%string
  | VDict d =>
      ("{" ++ (fix members (d : list (string * value)) : string :=
                 match d with
                 | [] => ""
                 | (k, x) :: d' =>
                     match d' with
                     | [] => "'" ++ k ++ "': " ++ repr x
                     | _ => "'" ++ k ++ "': " ++ repr x ++ ", " ++ members d'
                     end
                 end) d ++ "}")%string
  end.

Definition runtime : PyRuntime := {|
  json_dumps := fun v => list_byte_of_string (dumps v);
  json_loads := fun data => loads (string_of_list_byte data);
  unicode_upper := fun s => s;
  repr_other := repr;
  float_of_str := float_of_text;
  int_of_str := int_of_text;
  float_pow := pow
|}.

(** The bytes of the frame that carries [v]. *)
Definition frame (v : value) : list byte :=
  match @write_frame runtime v with
  | Return data => data
  | Raise _ => []
  end.
End Ref.

(** ** The client (TCP_loan_client.py) *)

(** [sep.join(words)] *)
Fixpoint str_join (sep : string) (words : list string) : string :=
  match words with
  | [] => ""
  | w :: ws =>
      match ws with
      | [] => w
      | _ :: _ => w ++ sep ++ str_join sep ws
      end
  end.

(** What one round of the prompt of [interactive] does with a line, once
    the line is split into words: it leaves the prompt ([bye]), prints
    [Unknown/invalid command.], prints [Error: e] for an exception caught
    by its [try], or sends a request.  [Crash] is an exception raised
    outside the [try]. *)
Inductive action : Type :=
| Bye
| Invalid
| Failed (e : exn)
| Request (payload : value)
| Crash (e : exn).

Section Client.
Context {rt : PyRuntime}.
Local Open Scope py_scope.

(** The payload [interactive] builds for a LOAN line *)
Definition interactive_loan (username amount years rate : string)
    : result value :=
  a <- float_of_str amount ;;
  y <- int_of_str years ;;
  r <- float_of_str rate ;;
  Return (VDict [("cmd", VStr "LOAN"); ("username", VStr username);
                 ("loan_amount", VFloat a); ("years", VInt y);
                 ("annual_rate", VFloat r)]).

(** One round of [interactive], from [parts = line.split()] to the
    request: [cmd = parts[0].upper()], then the chain of tests on [cmd]
    and [len(parts)]. *)
Definition interactive_payload (parts : list string) : action :=
  match parts with
  | [] => Crash (OtherError "IndexError" "list index out of range")
  | p0 :: args =>
      let cmd := str_upper p0 in
      let n := List.length parts in
      if (cmd =? "EXIT") || (cmd =? "QUIT") then Bye
      else if cmd =? "PING" then Request (VDict [("cmd", VStr "PING")])
      else if (cmd =? "LOAN") && (n =? 5)%nat then
        match args with
        | [username; amount; years; rate] =>
            match interactive_loan username amount years rate with
            | Return payload => Request payload
            | Raise e => Failed e
            end
        | _ => Invalid
        end
      else if (cmd =? "SET") && (3 <=? n)%nat then
        match args with
        | key :: words =>
            Request (VDict [("cmd", VStr "SET"); ("key", VStr key);
                            ("value", VStr (str_join " " words))])
        | [] => Invalid
        end
      else if (cmd =? "GET") && (n =? 2)%nat then
        match args with
        | key :: _ => Request (VDict [("cmd", VStr "GET"); ("key", VStr key)])
        | [] => Invalid
        end
      else if (cmd =? "DEL") && (n =? 2)%nat then
        match args with
        | key :: _ => Request (VDict [("cmd", VStr "DEL"); ("key", VStr key)])
        | [] => Invalid
        end
      else if (cmd =? "KEYS") && (n =? 1)%nat then
        Request (VDict [("cmd", VStr "KEYS")])
      else if (cmd =? "CLEAR") && (n =? 1)%nat then
        Request (VDict [("cmd", VStr "CLEAR")])
      else Invalid
  end.

(** [send_request(host, port, payload)] on a connection that opens: what
    the peer sends back for the bytes written is [connect]; the request is
    written, one frame is read, and the connection is closed. *)
Definition send_request (connect : list byte -> reader) (payload : value)
    : result value :=
  data <- write_frame payload ;;
  fst (client_read_frame (connect data)).

(** [loan_oneshot]: the response it prints *)
Definition loan_oneshot (connect : list byte -> reader) (username : string)
    (amount : float) (years : Z) (rate : float) : result value :=
  send_request connect
    (VDict [("cmd", VStr "LOAN"); ("username", VStr username);
            ("loan_amount", VFloat amount); ("years", VInt years);
            ("annual_rate", VFloat rate)]).

(** [kv_get_oneshot]: the response it prints *)
Definition kv_get_oneshot (connect : list byte -> reader) (key : string)
    : result value :=
  send_request connect (VDict [("cmd", VStr "GET"); ("key", VStr key)]).
End Client.

(** ** Client and server on one connection *)

(** The bytes a handler gave to its writer, in order. *)
Definition written (effects : list effect) : list byte :=
  flat_map (fun x => match x with Write data => data | _ => [] end) effects.

Section Connection.
Context {rt : PyRuntime}.

(** A connection of a client that writes [sent] and closes once it has
    read its answer, as [send_request] does: the server handles the bytes
    and meets the end of the stream after them; the client reads what the
    server wrote before it closed.  The store is the one [run_server]
    shares between the handlers. *)
Definition serve_connection (peer : peername) (store : KVStore.t)
    (sent : list byte) : reader * KVStore.t :=
  let '(effects, store', _) := handle_client peer (Reader sent PeerClosed) store in
  (Reader (written effects) PeerClosed, store').

(** A value travels when [json.loads] reads it back from its
    [json.dumps] text and that text fits a frame the server accepts. *)
Definition travels (v : value) : Prop :=
  json_loads (json_dumps v) = Return v /\
  (N.of_nat (List.length (json_dumps v)) <= 10000000)%N.

(** The responses of a handler come with their log records: each write is
    followed by the record of what was written, and the time-out pair
    comes last. *)
Inductive logged_in_pairs (peer : peername) : list effect -> Prop :=
| pairs_done : logged_in_pairs peer []
| pairs_timeout (data : list byte) :
    write_frame idle_response = Return data ->
    logged_in_pairs peer [Write data; Log (LogTimeout peer idle_response)]
| pairs_read_error (data : list byte) (msg : string) (rest : list effect) :
    write_frame (error_response msg) = Return data ->
    logged_in_pairs peer rest ->
    logged_in_pairs peer (Write data :: Log (LogReadError peer msg) :: rest)
| pairs_exchange (data : list byte) (req response : value)
    (rest : list effect) :
    write_frame response = Return data ->
    logged_in_pairs peer rest ->
    logged_in_pairs peer
      (Write data :: Log (LogExchange peer req response) :: rest).
End Connection.

(** ** The logger, and the handler when an append to the log fails *)

(** The records a handler logged, in order. *)
Definition logged (effects : list effect) : list log_record :=
  flat_map (fun x => match x with Log record => [record] | _ => [] end)
           effects.

(** [JsonlLogger]: the state is the log file, as the records appended to it
    so far.  [log(record)] serialises the record and appends its line.
    Both steps can raise: [json.dumps(..., ensure_ascii=False)] keeps a
    character that has no UTF-8 encoding (a lone surrogate, which
    [json.loads] accepts in a request), and the write of the line, encoded
    as UTF-8, then refuses it; and the file may not open.  [fails] tells, for
    a file and a record, whether the append raises, and what. *)
Module JsonlLogger.
Definition t : Type := list log_record.

Definition log (fails : t -> log_record -> option exn) (file : t)
    (record : log_record) : result t :=
  match fails file record with
  | Some e => Raise e
  | None => Return (file ++ [record])%list
  end.
End JsonlLogger.

(** The response a record is the record of. *)
Definition recorded_response (record : log_record) : value :=
  match record with
  | LogTimeout _ response => response
  | LogReadError _ error => error_response error
  | LogExchange _ _ response => response
  end.

Section LoggingHandler.
Context {rt : PyRuntime}.
Variable fails : JsonlLogger.t -> log_record -> option exn.

(** The [while True] loop of [handle_client] with its logger: as
    [client_loop], but [await logger.log(...)] stands in no [try], so an
    append that raises ends the loop with its exception, after the
    response was written.  [Log] marks an append that was made. *)
Fixpoint client_loop_logging (fuel : nat) (peer : peername) (rd : reader)
    (store : KVStore.t) (file : JsonlLogger.t)
    : list effect * KVStore.t * JsonlLogger.t * outcome :=
  match fuel with
  | O => ([], store, file, OutOfFuel)
  | S fuel' =>
      match read_frame rd with
      | (Raise TimeoutError, _) =>
          match write_frame idle_response with
          | Raise e => ([], store, file, Uncaught e)
          | Return data =>
              match JsonlLogger.log fails file
                      (LogTimeout peer idle_response) with
              | Raise e => ([Write data], store, file, Uncaught e)
              | Return file' =>
                  ([Write data; Log (LogTimeout peer idle_response)],
                   store, file', Finished)
              end
          end
      | (Raise IncompleteReadError, _) => ([], store, file, Finished)
      | (Raise e, rd') =>
          let resp := error_response (str_exn e) in
          match write_frame resp with
          | Raise e' => ([], store, file, Uncaught e')
          | Return data =>
              match JsonlLogger.log fails file
                      (LogReadError peer (str_exn e)) with
              | Raise e' => ([Write data], store, file, Uncaught e')
              | Return file' =>
                  let '(effects, store', file'', out) :=
                    client_loop_logging fuel' peer rd' store file' in
                  (Write data :: Log (LogReadError peer (str_exn e))
                     :: effects,
                   store', file'', out)
              end
          end
      | (Return req, rd') =>
          match dispatch req store with
          | (Raise e, store') => ([], store', file, Uncaught e)
          | (Return response, store') =>
              match write_frame response with
              | Raise e => ([], store', file, Uncaught e)
              | Return data =>
                  match JsonlLogger.log fails file
                          (LogExchange peer req response) with
                  | Raise e => ([Write data], store', file, Uncaught e)
                  | Return file' =>
                      let '(effects, store'', file'', out) :=
                        client_loop_logging fuel' peer rd' store' file' in
                      (Write data :: Log (LogExchange peer req response)
                         :: effects,
                       store'', file'', out)
                  end
              end
          end
      end
  end.

(** [handle_client] with its logger: the loop, then the [finally]. *)
Definition handle_client_logging (peer : peername) (rd : reader)
    (store : KVStore.t) (file : JsonlLogger.t)
    : list effect * KVStore.t * JsonlLogger.t * outcome :=
  let '(effects, store', file', out) :=
    client_loop_logging (S (List.length (pending rd))) peer rd store file in
  ((effects ++ [Close])%list, store', file', out).
End LoggingHandler.

(** * Properties *)

(** ** Dictionaries *)

Section DictFacts.
Context {V : Type}.
Implicit Types (d : dict V) (k : string) (v : V).

Lemma dict_lookup_setitem_same d k v :
  dict_lookup (dict_setitem d k v) k = Some v.
Proof.
  induction d as [|[k' v'] d IH]; simpl.
  - now rewrite String.eqb_refl.
  - destruct (k' =? k) eqn:E; simpl; rewrite E; [reflexivity | exact IH].
Qed.

Lemma dict_lookup_setitem_other d k k' v :
  k <> k' -> dict_lookup (dict_setitem d k v) k' = dict_lookup d k'.
Proof.
  intros Hne. induction d as [|[k0 v0] d IH]; simpl.
  - destruct (k =? k') eqn:E; [apply String.eqb_eq in E; contradiction | reflexivity].
  - destruct (k0 =? k) eqn:E; simpl.
    + apply String.eqb_eq in E; subst k0.
      destruct (k =? k') eqn:E'; [apply String.eqb_eq in E'; contradiction | reflexivity].
    + destruct (k0 =? k'); [reflexivity | exact IH].
Qed.

Lemma dict_lookup_remove_other d k k' :
  k <> k' -> dict_lookup (dict_remove d k) k' = dict_lookup d k'.
Proof.
  intros Hne. induction d as [|[k0 v0] d IH]; simpl; [reflexivity|].
  destruct (k0 =? k) eqn:E; simpl.
  - apply String.eqb_eq in E; subst k0.
    destruct (k =? k') eqn:E'; [apply String.eqb_eq in E'; contradiction | reflexivity].
  - destruct (k0 =? k'); [reflexivity | exact IH].
Qed.

Lemma dict_lookup_not_key d k :
  ~ In k (dict_keys d) -> dict_lookup d k = None.
Proof.
  induction d as [|[k0 v0] d IH]; simpl; intros Hn; [reflexivity|].
  destruct (k0 =? k) eqn:E.
  - apply String.eqb_eq in E. tauto.
  - apply IH. tauto.
Qed.

Lemma dict_lookup_key d k :
  In k (dict_keys d) -> exists v, dict_lookup d k = Some v.
Proof.
  induction d as [|[k0 v0] d IH]; simpl; intros Hin; [contradiction|].
  destruct (k0 =? k) eqn:E; [now exists v0|].
  destruct Hin as [->|Hin]; [now rewrite String.eqb_refl in E | auto].
Qed.

Lemma dict_keys_remove_incl d k k' :
  In k' (dict_keys (dict_remove d k)) -> In k' (dict_keys d).
Proof.
  induction d as [|[k0 v0] d IH]; simpl; [tauto|].
  destruct (k0 =? k); simpl; tauto.
Qed.

Lemma dict_keys_setitem d k v k' :
  In k' (dict_keys (dict_setitem d k v)) -> k' = k \/ In k' (dict_keys d).
Proof.
  induction d as [|[k0 v0] d IH]; simpl; [intuition|].
  destruct (k0 =? k); simpl; intuition.
Qed.

Lemma unique_keys_setitem d k v :
  unique_keys d -> unique_keys (dict_setitem d k v).
Proof.
  unfold unique_keys.
  induction d as [|[k0 v0] d IH]; simpl; intros Hu.
  - constructor; [intros [] | constructor].
  - inversion Hu as [|? ? Hn Hu']; subst.
    destruct (k0 =? k) eqn:E; simpl; constructor; auto.
    intros Hin. apply dict_keys_setitem in Hin as [->|Hin]; [|tauto].
    now rewrite String.eqb_refl in E.
Qed.

Lemma unique_keys_remove d k :
  unique_keys d -> unique_keys (dict_remove d k).
Proof.
  unfold unique_keys.
  induction d as [|[k0 v0] d IH]; simpl; intros Hu; [constructor|].
  inversion Hu as [|? ? Hn Hu']; subst.
  destruct (k0 =? k); simpl; [assumption|].
  constructor; auto. intros Hin. apply Hn. eapply dict_keys_remove_incl, Hin.
Qed.

Lemma dict_lookup_remove_same d k :
  unique_keys d -> dict_lookup (dict_remove d k) k = None.
Proof.
  unfold unique_keys.
  induction d as [|[k0 v0] d IH]; simpl; intros Hu; [reflexivity|].
  inversion Hu as [|? ? Hn Hu']; subst.
  destruct (k0 =? k) eqn:E; simpl.
  - apply String.eqb_eq in E; subst k0. now apply dict_lookup_not_key.
  - rewrite E. auto.
Qed.
End DictFacts.

(** ** The key-value store *)

Section StoreFacts.
Context {rt : PyRuntime}.

(** X2.  What [delete] does, for every store: the key is gone afterwards, the
    other keys keep their values, and the answer says [deleted: true]
    exactly when the key held a value other than [None]. *)
Lemma delete_spec (store : KVStore.t) (key : string) :
  unique_keys store ->
  let (response, store') := KVStore.delete store key in
  dict_lookup store' key = None /\
  (forall k, k <> key -> dict_lookup store' k = dict_lookup store k) /\
  unique_keys store' /\
  response =
    ok_response
      [("deleted",
        VBool match dict_lookup store key with
              | Some VNone | None => false
              | Some _ => true
              end)].
Proof.
  intros Hu. unfold KVStore.delete, dict_pop, dict_get. simpl.
  repeat split.
  - now apply dict_lookup_remove_same.
  - intros k Hk. apply dict_lookup_remove_other. congruence.
  - now apply unique_keys_remove.
  - destruct (dict_lookup store key) as [[]|]; reflexivity.
Qed.

Lemma delete_spec_witness :
  let (response, store') := KVStore.delete [("a", VInt 1); ("b", VNone)] "b" in
  dict_lookup store' "b" = None /\
  (forall k, k <> "b" ->
             dict_lookup store' k = dict_lookup [("a", VInt 1); ("b", VNone)] k) /\
  unique_keys store' /\
  response = ok_response [("deleted", VBool false)].
Proof.
  apply (delete_spec [("a", VInt 1); ("b", VNone)] "b").
  repeat constructor; simpl; intuition discriminate.
Defined.

(** C2, at the failing input.  A key stored with the value [null] is
    present; [DEL] removes it and still answers [deleted: false].  The
    entry is reached through the server's own [SET]. *)
Theorem delete_of_null_entry_reports_false :
  dispatch (VDict [("cmd", VStr "SET"); ("key", VStr "a"); ("value", VNone)])
           KVStore.init
  = (Return (ok_response []), [("a", VNone)]) /\
  dict_contains [("a", VNone)] "a" = true /\
  KVStore.delete [("a", VNone)] "a"
  = (ok_response [("deleted", VBool false)], []) /\
  dispatch (VDict [("cmd", VStr "DEL"); ("key", VStr "a")]) [("a", VNone)]
  = (Return (ok_response [("deleted", VBool false)]), []).
Proof. repeat split; reflexivity. Qed.

(** C7.  From every store, [clear()] answers [ok] and leaves a store
    whose [keys()] answers the empty list; the same holds for the
    commands [CLEAR] then [KEYS] sent through the dispatcher. *)
Theorem clear_then_keys_is_empty (store : KVStore.t) :
  (let (r1, store1) := KVStore.clear store in
   r1 = ok_response [] /\
   KVStore.keys store1 = (ok_response [("keys", VList [])], KVStore.init)) /\
  (let (r1, store1) := dispatch (VDict [("cmd", VStr "CLEAR")]) store in
   r1 = Return (ok_response []) /\
   dispatch (VDict [("cmd", VStr "KEYS")]) store1
   = (Return (ok_response [("keys", VList [])]), KVStore.init)).
Proof. split; split; reflexivity. Qed.
End StoreFacts.

(** ** The dispatcher *)

Section DispatchFacts.
Context {rt : PyRuntime}.

Lemma method_upper_or_str (c : string) :
  method_upper (py_or (VStr c) (VStr "")) = Return (str_upper c).
Proof.
  unfold py_or, truthy. destruct (c =? "") eqn:E; simpl; [|reflexivity].
  apply String.eqb_eq in E. now subst c.
Qed.

Lemma command_of_dict (d : dict value) :
  command_of (VDict d)
  = bind (method_upper (py_or (dict_get d "cmd") (VStr "")))
         (fun cmd => Return (d, cmd)).
Proof. reflexivity. Qed.

Lemma command_of_str (d : dict value) (c : string) :
  dict_lookup d "cmd" = Some (VStr c) ->
  command_of (VDict d) = Return (d, str_upper c).
Proof.
  intros H. rewrite command_of_dict. unfold dict_get. rewrite H.
  now rewrite method_upper_or_str.
Qed.

(** The dispatcher reads the request through the command and five
    fields only. *)
Lemma dispatch_ext (d1 d2 : dict value) (store : KVStore.t) :
  (forall k, In k ["loan_amount"; "years"; "annual_rate"; "key"; "value"] ->
             dict_lookup d1 k = dict_lookup d2 k) ->
  method_upper (py_or (dict_get d1 "cmd") (VStr ""))
  = method_upper (py_or (dict_get d2 "cmd") (VStr "")) ->
  dispatch (VDict d1) store = dispatch (VDict d2) store.
Proof.
  intros Hf Hc.
  assert (E1 := Hf "loan_amount"). assert (E2 := Hf "years").
  assert (E3 := Hf "annual_rate"). assert (E4 := Hf "key").
  assert (E5 := Hf "value").
  unfold dispatch. rewrite !command_of_dict, Hc.
  destruct (method_upper (py_or (dict_get d2 "cmd") (VStr ""))) as [cmd|e];
    simpl; [|reflexivity].
  unfold loan_response, loan, dict_getitem, dict_contains, dict_get.
  rewrite E1, E2, E3, E4, E5 by (simpl; tauto).
  reflexivity.
Qed.

Lemma loan_raises_when_a_field_is_missing (d : dict value) :
  dict_lookup d "loan_amount" = None \/ dict_lookup d "years" = None
  \/ dict_lookup d "annual_rate" = None ->
  exists e, loan d = Raise e.
Proof.
  intros H. unfold loan, dict_getitem.
  destruct (dict_lookup d "loan_amount") as [v1|]; simpl; [|eauto].
  destruct (py_float v1) as [a|]; simpl; [|eauto].
  destruct (dict_lookup d "years") as [v2|]; simpl; [|eauto].
  destruct (py_int v2) as [y|]; simpl; [|eauto].
  destruct (dict_lookup d "annual_rate") as [v3|]; simpl; [|eauto].
  destruct H as [H|[H|H]]; discriminate.
Qed.

Lemma loan_response_of_raise (d : dict value) (e : exn) :
  loan d = Raise e -> exists msg, loan_response d = error_response msg.
Proof.
  intros H. unfold loan_response. rewrite H. destruct e; eauto.
Qed.

Lemma dispatch_loan (d : dict value) (store : KVStore.t) :
  command_of (VDict d) = Return (d, "LOAN") ->
  dispatch (VDict d) store = (Return (loan_response d), store).
Proof. intros H. unfold dispatch. now rewrite H. Qed.
End DispatchFacts.

Section DispatchClaims.
Context {rt : PyRuntime}.

(** C1, where the dispatch step fails.  A request that is not a dict, or
    whose [cmd] is a true value other than a string, makes the dispatch
    step raise [AttributeError]: no response is built.  (A [cmd] that is
    absent or false dispatches as the empty command.) *)
Theorem dispatch_raises_on_malformed_request (store : KVStore.t) :
  dispatch (VDict [("cmd", VInt 5)]) store
  = (Raise (AttributeError "'int' object has no attribute 'upper'"), store) /\
  dispatch (VList [VStr "PING"]) store
  = (Raise (AttributeError "'list' object has no attribute 'get'"), store) /\
  (forall req,
      match req with
      | VDict d =>
          match dict_get d "cmd" with
          | VStr _ => True
          | c =>
              if truthy c then
                exists msg,
                  dispatch req store = (Raise (AttributeError msg), store)
              else
                dispatch req store
                = (Return (error_response "unknown cmd: "), store)
          end
      | _ => exists msg, dispatch req store = (Raise (AttributeError msg), store)
      end).
Proof.
  split; [reflexivity|]. split; [reflexivity|].
  intros req. destruct req as [| | | | |l|d]; try (eexists; reflexivity).
  destruct (dict_get d "cmd") as [|b|z|f|s|l|d'] eqn:E; try exact I;
    unfold dispatch; rewrite command_of_dict, E; unfold py_or.
  - reflexivity.
  - destruct b; simpl; [eexists|]; reflexivity.
  - destruct (truthy (VInt z)); simpl; [eexists|]; reflexivity.
  - destruct (truthy (VFloat f)); simpl; [eexists|]; reflexivity.
  - destruct l; simpl; [|eexists]; reflexivity.
  - destruct d'; simpl; [|eexists]; reflexivity.
Qed.

(** X3.  With a string for [cmd] (or none), the dispatch step always builds a
    response. *)
Lemma dispatch_returns_on_string_cmd (d : dict value) (store : KVStore.t) :
  match dict_get d "cmd" with VStr _ | VNone => True | _ => False end ->
  exists response store',
    dispatch (VDict d) store = (Return response, store').
Proof.
  intros H. unfold dispatch. rewrite command_of_dict.
  assert (exists cmd, method_upper (py_or (dict_get d "cmd") (VStr ""))
                      = Return cmd) as [cmd ->].
  { destruct (dict_get d "cmd"); try contradiction.
    - now exists "".
    - rewrite method_upper_or_str. eauto. }
  cbn [bind].
  destruct (cmd =? "PING"); [eauto|].
  destruct (cmd =? "LOAN"); [eauto|].
  destruct (cmd =? "SET").
  { destruct (is_None (dict_get d "key") || negb (dict_contains d "value"))
      eqn:E; [eauto|].
    apply orb_false_elim in E as [_ E]. apply negb_false_iff in E.
    unfold dict_contains in E. unfold dict_getitem, KVStore.set.
    destruct (dict_lookup d "value"); [eauto | discriminate]. }
  destruct (cmd =? "GET").
  { destruct (is_None _); [eauto|].
    unfold KVStore.get. destruct (dict_lookup store _); eauto. }
  destruct (cmd =? "DEL").
  { destruct (is_None _); [eauto|]. unfold KVStore.delete. simpl. eauto. }
  destruct (cmd =? "KEYS"); [simpl; eauto|].
  destruct (cmd =? "CLEAR"); simpl; eauto.
Qed.

(** C3, amended.  For a LOAN request: when [loan_amount], [years] or
    [annual_rate] is missing the answer is an error and the store is left
    alone; the error names the first missing field when the fields
    before it convert; [username] is never looked at, so a request
    without it is answered as the same request with it; and when
    [loan_amount], or [years] after it, fails to convert, whatever else is
    missing, the error is the text of the exception of that conversion
    (after [missing field: ] should the exception be a [KeyError]). *)
Theorem loan_missing_field (d : dict value) (store : KVStore.t) :
  command_of (VDict d) = Return (d, "LOAN") ->
  (dict_lookup d "loan_amount" = None \/ dict_lookup d "years" = None
   \/ dict_lookup d "annual_rate" = None ->
   exists msg, dispatch (VDict d) store = (Return (error_response msg), store))
  /\
  (dict_lookup d "loan_amount" = None ->
   dispatch (VDict d) store
   = (Return (error_response "missing field: 'loan_amount'"), store))
  /\
  (forall v1 a,
      dict_lookup d "loan_amount" = Some v1 -> py_float v1 = Return a ->
      dict_lookup d "years" = None ->
      dispatch (VDict d) store
      = (Return (error_response "missing field: 'years'"), store))
  /\
  (forall v1 a v2 y,
      dict_lookup d "loan_amount" = Some v1 -> py_float v1 = Return a ->
      dict_lookup d "years" = Some v2 -> py_int v2 = Return y ->
      dict_lookup d "annual_rate" = None ->
      dispatch (VDict d) store
      = (Return (error_response "missing field: 'annual_rate'"), store))
  /\
  (forall d',
      (forall k, k <> "username" -> dict_lookup d' k = dict_lookup d k) ->
      dispatch (VDict d') store = dispatch (VDict d) store)
  /\
  (forall v1 e,
      dict_lookup d "loan_amount" = Some v1 -> py_float v1 = Raise e ->
      dispatch (VDict d) store
      = (Return (error_response
                   match e with
                   | KeyError _ => "missing field: " ++ str_exn e
                   | _ => str_exn e
                   end), store))
  /\
  (forall v1 a v2 e,
      dict_lookup d "loan_amount" = Some v1 -> py_float v1 = Return a ->
      dict_lookup d "years" = Some v2 -> py_int v2 = Raise e ->
      dispatch (VDict d) store
      = (Return (error_response
                   match e with
                   | KeyError _ => "missing field: " ++ str_exn e
                   | _ => str_exn e
                   end), store)).
Proof.
  intros Hcmd. rewrite (dispatch_loan d store Hcmd).
  assert (forall d' : dict value,
             (forall k, k <> "username" -> dict_lookup d' k = dict_lookup d k) ->
             dispatch (VDict d') store = (Return (loan_response d), store))
    as Hext.
  { intros d' Hd'. rewrite <- (dispatch_loan d store Hcmd).
    apply dispatch_ext.
    - intros k Hk. apply Hd'. simpl in Hk.
      intuition (subst; discriminate).
    - unfold dict_get. rewrite Hd' by discriminate. reflexivity. }
  split; [|split; [|split; [|split; [|split; [exact Hext|split]]]]].
  - intros H. destruct (loan_raises_when_a_field_is_missing d H) as [e He].
    destruct (loan_response_of_raise d e He) as [msg ->]. eauto.
  - intros H. unfold loan_response, loan, dict_getitem. now rewrite H.
  - intros v1 a H1 Ha H2.
    unfold loan_response, loan, dict_getitem. rewrite H1. cbn [bind].
    rewrite Ha. cbn [bind]. now rewrite H2.
  - intros v1 a v2 y H1 Ha H2 Hy H3.
    unfold loan_response, loan, dict_getitem. rewrite H1. cbn [bind].
    rewrite Ha. cbn [bind]. rewrite H2. cbn [bind]. rewrite Hy. cbn [bind].
    now rewrite H3.
  - intros v1 e H1 He.
    unfold loan_response, loan, dict_getitem. rewrite H1. cbn [bind].
    rewrite He. cbn [bind]. now destruct e.
  - intros v1 a v2 e H1 Ha H2 He.
    unfold loan_response, loan, dict_getitem. rewrite H1. cbn [bind].
    rewrite Ha. cbn [bind]. rewrite H2. cbn [bind]. rewrite He. cbn [bind].
    now destruct e.
Qed.

(** X5.  The dispatch step keeps the keys of the store unique. *)
Lemma dispatch_keeps_unique_keys (req : value) (store : KVStore.t) :
  unique_keys store -> unique_keys (snd (dispatch req store)).
Proof.
  intros Hu. unfold dispatch.
  destruct (command_of req) as [[d cmd]|e]; [|exact Hu].
  destruct (cmd =? "PING"); [exact Hu|].
  destruct (cmd =? "LOAN"); [exact Hu|].
  destruct (cmd =? "SET").
  { destruct (is_None (dict_get d "key") || negb (dict_contains d "value"));
      [exact Hu|].
    destruct (dict_getitem d "value"); [|exact Hu].
    now apply unique_keys_setitem. }
  destruct (cmd =? "GET").
  { destruct (is_None _); [exact Hu|].
    unfold KVStore.get. now destruct (dict_lookup store _). }
  destruct (cmd =? "DEL").
  { destruct (is_None _); [exact Hu|]. now apply unique_keys_remove. }
  destruct (cmd =? "KEYS"); [exact Hu|].
  destruct (cmd =? "CLEAR"); [constructor | exact Hu].
Qed.

(** X6.  A command outside the seven known ones is answered with
    [unknown cmd: ] followed by the command in upper case, and the store is
    left alone. *)
Lemma dispatch_unknown_command (d : dict value) (c : string)
    (store : KVStore.t) :
  dict_lookup d "cmd" = Some (VStr c) ->
  ~ In (str_upper c) ["PING"; "LOAN"; "SET"; "GET"; "DEL"; "KEYS"; "CLEAR"] ->
  dispatch (VDict d) store
  = (Return (error_response ("unknown cmd: " ++ str_upper c)), store).
Proof.
  intros Hc Hn. unfold dispatch. rewrite (command_of_str d c Hc).
  assert (forall k, In k ["PING"; "LOAN"; "SET"; "GET"; "DEL"; "KEYS"; "CLEAR"] ->
                    (str_upper c =? k) = false) as Hk.
  { intros k Hin. apply String.eqb_neq. intros E. apply Hn. now rewrite E. }
  rewrite !Hk by (simpl; tauto). reflexivity.
Qed.

(** C9.  Two requests that agree on every field but [cmd], whose [cmd]
    strings have the same upper case, get the same response and leave
    the same store. *)
Theorem dispatch_case_insensitive (d1 d2 : dict value) (c1 c2 : string)
    (store : KVStore.t) :
  dict_lookup d1 "cmd" = Some (VStr c1) ->
  dict_lookup d2 "cmd" = Some (VStr c2) ->
  (forall k, k <> "cmd" -> dict_lookup d1 k = dict_lookup d2 k) ->
  str_upper c1 = str_upper c2 ->
  dispatch (VDict d1) store = dispatch (VDict d2) store.
Proof.
  intros H1 H2 Hk Hu. apply dispatch_ext.
  - intros k Hin. apply Hk. simpl in Hin. intuition (subst; discriminate).
  - unfold dict_get. rewrite H1, H2, !method_upper_or_str. now rewrite Hu.
Qed.

(** C10.  The store is a dict keyed by strings, and SET, GET and DEL reach
    it through [str(key)]: a SET with a key other than [None], whatever its
    type, stores the value under [str(key)], a GET with the same key then
    answers that value, and a DEL with the same key removes that entry. *)
Theorem set_then_get_same_key (ds dg dd : dict value) (k v : value)
    (store : KVStore.t) :
  command_of (VDict ds) = Return (ds, "SET") ->
  command_of (VDict dg) = Return (dg, "GET") ->
  command_of (VDict dd) = Return (dd, "DEL") ->
  dict_lookup ds "key" = Some k -> dict_lookup dg "key" = Some k ->
  dict_lookup dd "key" = Some k ->
  k <> VNone ->
  dict_lookup ds "value" = Some v ->
  let store' : dict value := dict_setitem store (py_str k) v in
  dispatch (VDict ds) store = (Return (ok_response []), store') /\
  dict_lookup store' (py_str k) = Some v /\
  dispatch (VDict dg) store' = (Return (ok_response [("value", v)]), store') /\
  snd (dispatch (VDict dd) store') = dict_remove store' (py_str k).
Proof.
  intros Hs Hg Hd Hks Hkg Hkd Hk Hv store'.
  assert (is_None k = false) as Hn
      by (destruct k; [now destruct Hk | reflexivity ..]).
  assert (dict_lookup store' (py_str k) = Some v) as Hl
      by apply dict_lookup_setitem_same.
  unfold dispatch. rewrite Hs, Hg, Hd. cbn [String.eqb Ascii.eqb Bool.eqb].
  unfold dict_get, dict_contains, dict_getitem, KVStore.set, KVStore.get,
    KVStore.delete, dict_pop.
  rewrite Hks, Hkg, Hkd, Hv, Hn. cbn [negb orb]. fold store'. rewrite Hl.
  auto.
Qed.
End DispatchClaims.

(** ** Loan math *)

Lemma float_eqb_zero_inv (x : float) :
  (x =? 0)%float = true -> x = zero \/ x = neg_zero.
Proof.
  rewrite eqb_spec. intros H.
  rewrite <- (SF2Prim_Prim2SF x).
  destruct (Prim2SF x) as [[]| [] | |[] m e]; try discriminate H; auto.
Qed.

Section LoanClaims.
Context {rt : PyRuntime}.

(** C6, amended.  With a zero annual rate, and a number of months
    [years * 12] that converts to a float [n] other than zero, the result
    is [loan_amount / n] and [(loan_amount / n) * n], each rounded to two
    decimals; with [years = 0] the division raises.  With a monthly rate
    [r = annual_rate / 100 / 12] other than zero the monthly payment is
    [(loan_amount * r) / (1 - (1 / (1 + r)) ** months)], as long as
    [1 + r] and the denominator are not zero and the power is defined. *)
Theorem calculate_payments_spec (loan_amount : float) (years : Z)
    (annual_rate : float) :
  ((annual_rate =? 0)%float = true ->
   (forall n,
       float_of_int (years * 12) = Return n -> (n =? 0)%float = false ->
       calculate_payments loan_amount years annual_rate
       = Return (float_round (loan_amount / n) 2,
                 float_round (loan_amount / n * n) 2))
   /\
   (years = 0%Z ->
    calculate_payments loan_amount years annual_rate
    = Raise (ZeroDivisionError "float division by zero")))
  /\
  (let r := (annual_rate / 100 / 12)%float in
   (r =? 0)%float = false ->
   forall p n,
     (1 + r =? 0)%float = false ->
     float_pow (1 / (1 + r))%float (years * 12) = Return p ->
     (1 - p =? 0)%float = false ->
     float_of_int (years * 12) = Return n ->
     calculate_payments loan_amount years annual_rate
     = Return (float_round (loan_amount * r / (1 - p)) 2,
               float_round (loan_amount * r / (1 - p) * n) 2)).
Proof.
  split.
  - intros Hz.
    assert ((annual_rate / 100 / 12 =? 0)%float = true) as Hr
        by (destruct (float_eqb_zero_inv _ Hz) as [-> | ->]; reflexivity).
    split.
    + intros n Hn Hn0. unfold calculate_payments. rewrite Hr, Hn.
      cbn [bind]. unfold float_div. rewrite Hn0. reflexivity.
    + intros ->. unfold calculate_payments. rewrite Hr. reflexivity.
  - intros r Hr p n H1 Hp Hd Hn. unfold calculate_payments. fold r.
    rewrite Hr. unfold float_div at 1. rewrite H1. cbn [bind].
    rewrite Hp. cbn [bind]. unfold float_div. rewrite Hd. cbn [bind].
    rewrite Hn. reflexivity.
Qed.
End LoanClaims.

(** ** Framing *)

Lemma byte_of_N_to_N (n : N) : Byte.to_N (HEADER.byte_of_N n) = (n mod 256)%N.
Proof.
  unfold HEADER.byte_of_N.
  destruct (Byte.of_N (n mod 256)) as [b|] eqn:E.
  - now apply Byte.to_of_N.
  - apply Byte.of_N_None_iff in E.
    pose proof (N.mod_lt n 256). lia.
Qed.

Lemma header_unpack_pack (n : N) :
  (n < 2 ^ 32)%N ->
  exists b3 b2 b1 b0,
    HEADER.pack n = Return [b3; b2; b1; b0] /\
    HEADER.unpack [b3; b2; b1; b0] = Return n.
Proof.
  intros Hn. unfold HEADER.pack.
  apply N.ltb_lt in Hn as Hb. rewrite Hb.
  do 4 eexists. split; [reflexivity|].
  unfold HEADER.unpack. rewrite !byte_of_N_to_N. f_equal.
  change (2 ^ 24)%N with 16777216%N. change (2 ^ 16)%N with 65536%N.
  change (2 ^ 8)%N with 256%N. change (2 ^ 32)%N with 4294967296%N in Hn.
  zify. Z.to_euclidean_division_equations. lia.
Qed.

Lemma readexactly_app (a b : list byte) (e : ending) :
  readexactly (N.of_nat (List.length a)) (Reader (a ++ b) e)
  = (Return a, Reader b e).
Proof.
  unfold readexactly. cbn [pending at_end].
  assert ((N.of_nat (List.length a) <=? N.of_nat (List.length (a ++ b)))%N = true)
    as -> by (apply N.leb_le; rewrite length_app; lia).
  rewrite Nat2N.id, firstn_app, skipn_app, firstn_all, skipn_all, Nat.sub_diag.
  cbn [firstn skipn]. now rewrite app_nil_r.
Qed.

Lemma readexactly_short (n : N) (rd : reader) :
  (N.of_nat (List.length (pending rd)) < n)%N ->
  readexactly n rd
  = match at_end rd with
    | PeerClosed => (Raise IncompleteReadError, Reader [] PeerClosed)
    | PeerSilent => (Raise TimeoutError, rd)
    end.
Proof.
  intros H. unfold readexactly.
  now apply N.leb_gt in H as ->.
Qed.

Section FramingClaims.
Context {rt : PyRuntime}.

Lemma read_frame_header (b3 b2 b1 b0 : byte) (rest : list byte) (e : ending) :
  readexactly (N.of_nat HEADER.size) (Reader (b3 :: b2 :: b1 :: b0 :: rest) e)
  = (Return [b3; b2; b1; b0], Reader rest e).
Proof. exact (readexactly_app [b3; b2; b1; b0] rest e). Qed.

(** C5.  After a header that declares [L] bytes: with [L] above
    10,000,000 the read fails with [ValueError("invalid frame length")]
    and the bytes after the header are all still pending; with [L] up to
    10,000,000 the check passes, and then the next [L] bytes, no more,
    are taken and parsed, or, when fewer than [L] bytes come, the read
    fails as a short read does. *)
Theorem read_frame_length_check (b3 b2 b1 b0 : byte) (rest : list byte)
    (e : ending) (L : N) :
  HEADER.unpack [b3; b2; b1; b0] = Return L ->
  let rd := Reader (b3 :: b2 :: b1 :: b0 :: rest) e in
  ((10000000 < L)%N ->
   read_frame rd = (Raise (ValueError "invalid frame length"), Reader rest e))
  /\
  ((L <= 10000000)%N ->
   forall body rest',
     rest = (body ++ rest')%list -> N.of_nat (List.length body) = L ->
     read_frame rd = (json_loads body, Reader rest' e))
  /\
  ((L <= 10000000)%N ->
   (N.of_nat (List.length rest) < L)%N ->
   read_frame rd
   = match e with
     | PeerClosed => (Raise IncompleteReadError, Reader [] PeerClosed)
     | PeerSilent => (Raise TimeoutError, Reader rest e)
     end).
Proof.
  intros HL rd. unfold read_frame, rd.
  rewrite read_frame_header, HL.
  assert ((L <? 0)%N = false) as -> by (apply N.ltb_ge; lia).
  cbn [orb]. repeat split.
  - intros H. now apply N.ltb_lt in H as ->.
  - intros H body rest' -> <-. apply N.ltb_ge in H as ->.
    now rewrite readexactly_app.
  - intros H Hs. apply N.ltb_ge in H as ->.
    rewrite readexactly_short by exact Hs. cbn [at_end]. now destruct e.
Qed.

(** C4.  A response [r] that [json.loads] reads back from its
    [json.dumps] text as [r'] goes through the frame codec unchanged:
    [write_frame] succeeds, and reading its bytes gives [r'] and leaves
    what follows them.  The server's [read_frame] does so for texts of up
    to 10,000,000 bytes, the client's for every text [write_frame]
    accepts. *)
Theorem frame_round_trip (r r' : value) (rest : list byte) (e : ending) :
  json_loads (json_dumps r) = Return r' ->
  ((N.of_nat (List.length (json_dumps r)) <= 10000000)%N ->
   exists data,
     write_frame r = Return data /\
     read_frame (Reader (data ++ rest) e) = (Return r', Reader rest e))
  /\
  ((N.of_nat (List.length (json_dumps r)) < 2 ^ 32)%N ->
   exists data,
     write_frame r = Return data /\
     client_read_frame (Reader (data ++ rest) e) = (Return r', Reader rest e)).
Proof.
  intros Hrt.
  assert (forall n, (n < 2 ^ 32)%N -> n = N.of_nat (List.length (json_dumps r)) ->
            exists hdr, HEADER.pack n = Return hdr /\
              forall tail, readexactly (N.of_nat HEADER.size)
                             (Reader (hdr ++ tail) e)
                           = (Return hdr, Reader tail e) /\
                           HEADER.unpack hdr = Return n) as Hhdr.
  { intros n Hn _. destruct (header_unpack_pack n Hn) as (b3 & b2 & b1 & b0 & Hp & Hu).
    exists [b3; b2; b1; b0]. split; [exact Hp|]. intros tail. split; [|exact Hu].
    apply read_frame_header. }
  split; intros Hlen.
  - destruct (Hhdr (N.of_nat (List.length (json_dumps r)))) as (hdr & Hp & Hr);
      [eapply N.le_lt_trans; [exact Hlen | reflexivity] | reflexivity |].
    exists (hdr ++ json_dumps r)%list. unfold write_frame. rewrite Hp.
    split; [reflexivity|].
    unfold read_frame. rewrite <- app_assoc.
    destruct (Hr (json_dumps r ++ rest)%list) as [-> ->].
    assert ((N.of_nat (List.length (json_dumps r)) <? 0)%N = false) as ->
        by (apply N.ltb_ge, N.le_0_l).
    assert ((10000000 <? N.of_nat (List.length (json_dumps r)))%N = false) as ->
        by (apply N.ltb_ge; exact Hlen).
    cbn [orb]. rewrite readexactly_app. now rewrite Hrt.
  - destruct (Hhdr (N.of_nat (List.length (json_dumps r)))) as (hdr & Hp & Hr);
      [exact Hlen | reflexivity |].
    exists (hdr ++ json_dumps r)%list. unfold write_frame. rewrite Hp.
    split; [reflexivity|].
    unfold client_read_frame. rewrite <- app_assoc.
    destruct (Hr (json_dumps r ++ rest)%list) as [-> ->].
    rewrite readexactly_app. now rewrite Hrt.
Qed.
End FramingClaims.

(** ** The connection handler *)

Lemma cons2_split {A : Type} (x y z : A) (l pre post : list A) :
  x :: y :: l = (pre ++ z :: post)%list -> x <> z -> y <> z ->
  exists pre', pre = x :: y :: pre' /\ l = (pre' ++ z :: post)%list.
Proof.
  intros H Hx Hy. destruct pre as [|a [|b pre']]; simpl in H.
  - congruence.
  - injection H as -> H. congruence.
  - injection H as -> -> H. eauto.
Qed.

Lemma readexactly_pending (n : N) (rd rd' : reader) (data : list byte) :
  readexactly n rd = (Return data, rd') ->
  (List.length (pending rd') + N.to_nat n = List.length (pending rd))%nat.
Proof.
  unfold readexactly.
  destruct (n <=? N.of_nat (List.length (pending rd)))%N eqn:E.
  - intros H. injection H as _ <-. cbn [pending].
    apply N.leb_le in E. rewrite length_skipn. lia.
  - destruct (at_end rd); discriminate.
Qed.

Lemma readexactly_raise (n : N) (rd rd' : reader) (e : exn) :
  readexactly n rd = (Raise e, rd') ->
  e = IncompleteReadError \/ e = TimeoutError.
Proof.
  unfold readexactly.
  destruct (n <=? N.of_nat (List.length (pending rd)))%N; [discriminate|].
  destruct (at_end rd); intros H; injection H as <- _; auto.
Qed.

Section HandlerFacts.
Context {rt : PyRuntime}.

(** A read that neither timed out nor met the end of the stream has
    taken a header off the pending bytes. *)
Lemma read_frame_consumes (rd rd' : reader) (r : result value) :
  read_frame rd = (r, rd') ->
  r = Raise TimeoutError \/ r = Raise IncompleteReadError \/
  (List.length (pending rd') < List.length (pending rd))%nat.
Proof.
  unfold read_frame.
  destruct (readexactly (N.of_nat HEADER.size) rd) as [[hdr|e] rd1] eqn:E1.
  2:{ intros H. injection H as <- _.
      apply readexactly_raise in E1 as [-> | ->]; auto. }
  apply readexactly_pending in E1. rewrite Nat2N.id in E1.
  unfold HEADER.size in E1.
  destruct (HEADER.unpack hdr) as [len|e].
  2:{ intros H. injection H as _ <-. right; right. lia. }
  destruct ((len <? 0)%N || (10000000 <? len)%N).
  { intros H. injection H as _ <-. right; right. lia. }
  destruct (readexactly len rd1) as [[data|e] rd2] eqn:E2.
  - apply readexactly_pending in E2.
    intros H. injection H as _ <-. right; right. lia.
  - intros H. injection H as <- _.
    apply readexactly_raise in E2 as [-> | ->]; auto.
Qed.



(** In the effects of the loop a time-out record comes last, right
    after the one write of the idle response, and ends the loop. *)
Lemma client_loop_timeout_shape (fuel : nat) (peer : peername) :
  forall (rd : reader) (store : KVStore.t) effects store' out,
    client_loop fuel peer rd store = (effects, store', out) ->
    forall pre p r post,
      effects = (pre ++ Log (LogTimeout p r) :: post)%list ->
      p = peer /\ r = idle_response /\ post = [] /\ out = Finished /\
      exists pre' data,
        pre = (pre' ++ [Write data])%list /\
        write_frame idle_response = Return data /\
        Forall (fun x => forall p' r', x <> Log (LogTimeout p' r')) pre'.
Proof.
  induction fuel as [|fuel IH]; intros rd store effects store' out Hrun
    pre p r post Heff.
  { injection Hrun as <- _ _. now destruct pre. }
  cbn [client_loop] in Hrun.
  assert (forall data rec rd1 st1,
             (forall p' r', rec <> LogTimeout p' r') ->
             (let '(eff, st, o) := client_loop fuel peer rd1 st1 in
              (Write data :: Log rec :: eff, st, o)) = (effects, store', out) ->
             p = peer /\ r = idle_response /\ post = [] /\ out = Finished /\
             exists pre' data,
               pre = (pre' ++ [Write data])%list /\
               write_frame idle_response = Return data /\
               Forall (fun x => forall p' r', x <> Log (LogTimeout p' r')) pre')
    as Hcont.
  { intros data rec rd1 st1 Hrec H.
    destruct (client_loop fuel peer rd1 st1) as [[eff st] o] eqn:El.
    injection H as <- <- <-. symmetry in Heff.
    apply eq_sym, cons2_split in Heff as (pre2 & -> & Heff);
      [| discriminate | intros E; injection E as E; now apply Hrec in E].
    destruct (IH _ _ _ _ _ El _ _ _ _ Heff)
      as (-> & -> & -> & -> & pre' & d & -> & Hd & Hall).
    repeat split; try reflexivity.
    exists (Write data :: Log rec :: pre'), d. repeat split; auto.
    constructor; [discriminate|]. constructor; [|exact Hall].
    intros p' r' E. injection E as E. now apply Hrec in E. }
  destruct (read_frame rd) as [[req|e] rd'].
  - destruct (dispatch req store) as [[response|e] store1].
    2:{ injection Hrun as <- _ _. now destruct pre. }
    destruct (write_frame response) as [data|e].
    2:{ injection Hrun as <- _ _. now destruct pre. }
    eapply Hcont; [|exact Hrun]. discriminate.
  - destruct e;
      try (destruct (write_frame (error_response _)) as [data|e'];
           [eapply Hcont; [|exact Hrun]; discriminate
           | injection Hrun as <- _ _; now destruct pre]).
    + injection Hrun as <- _ _. now destruct pre.
    + destruct (write_frame idle_response) as [data|e'] eqn:Ew.
      2:{ injection Hrun as <- _ _. now destruct pre. }
      injection Hrun as <- _ <-.
      destruct pre as [|a [|b pre]]; simpl in Heff.
      * discriminate.
      * injection Heff as <- <- <- <-.
        repeat split; try reflexivity.
        exists [], data. repeat split; auto.
      * injection Heff as _ _ Heff. now destruct pre.
Qed.
End HandlerFacts.

Lemma app_tail_split {A : Type} (c z : A) (l pre post : list A) :
  (l ++ [c] = pre ++ z :: post)%list -> c <> z ->
  exists post', post = (post' ++ [c])%list /\ l = (pre ++ z :: post')%list.
Proof.
  intros H Hc. destruct post as [|y post].
  - apply app_inj_tail in H as [_ H]. contradiction.
  - destruct (exists_last (l := y :: post)) as (post' & last & E); [discriminate|].
    rewrite E in *. change (z :: post' ++ [last])%list
      with ((z :: post') ++ [last])%list in H.
    rewrite app_assoc in H. apply app_inj_tail in H as [-> ->].
    exists post'. auto.
Qed.

Section HandlerClaims.
Context {rt : PyRuntime}.

(** C8.  A round of the loop whose read times out writes the idle
    response, logs the time-out and leaves the loop, and [handle_client]
    then closes the writer.  In every run of [handle_client], a time-out
    record is preceded by the write of the idle response, with no
    time-out record before it, and followed by the closing of the writer
    alone: nothing is written after it. *)
Theorem idle_timeout_closes_connection (peer : peername) (rd : reader)
    (store : KVStore.t) :
  (forall rd' data,
      read_frame rd = (Raise TimeoutError, rd') ->
      write_frame idle_response = Return data ->
      (forall fuel,
          client_loop (S fuel) peer rd store
          = ([Write data; Log (LogTimeout peer idle_response)], store,
             Finished)) /\
      handle_client peer rd store
      = ([Write data; Log (LogTimeout peer idle_response); Close], store,
         Finished))
  /\
  (forall effects store' out pre p r post,
      handle_client peer rd store = (effects, store', out) ->
      effects = (pre ++ Log (LogTimeout p r) :: post)%list ->
      p = peer /\ r = idle_response /\ post = [Close] /\ out = Finished /\
      exists pre' data,
        pre = (pre' ++ [Write data])%list /\
        write_frame idle_response = Return data /\
        Forall (fun x => forall p' r', x <> Log (LogTimeout p' r')) pre').
Proof.
  split.
  - intros rd' data Hr Hw.
    assert (forall fuel,
               client_loop (S fuel) peer rd store
               = ([Write data; Log (LogTimeout peer idle_response)], store,
                  Finished)) as Hloop
        by (intros fuel; cbn [client_loop]; now rewrite Hr, Hw).
    split; [exact Hloop|]. unfold handle_client. now rewrite Hloop.
  - intros effects store' out pre p r post Hrun Heff.
    unfold handle_client in Hrun.
    destruct (client_loop (S (List.length (pending rd))) peer rd store)
      as [[eff st] o] eqn:El.
    injection Hrun as <- <- <-.
    apply app_tail_split in Heff as (post' & -> & Heff); [|discriminate].
    destruct (client_loop_timeout_shape _ _ _ _ _ _ _ El _ _ _ _ Heff)
      as (-> & -> & -> & -> & Hpre).
    repeat split; auto.
Qed.


(** X4.  An exception of the dispatch step goes through [handle_client]: the
    request gets no response and no log record, and the writer is
    closed. *)
Lemma dispatch_exception_ends_connection (peer : peername) (rd rd' : reader)
    (store store' : KVStore.t) (req : value) (e : exn) :
  read_frame rd = (Return req, rd') ->
  dispatch req store = (Raise e, store') ->
  handle_client peer rd store = ([Close], store', Uncaught e).
Proof.
  intros Hr Hd. unfold handle_client. cbn [client_loop].
  now rewrite Hr, Hd.
Qed.
End HandlerClaims.

(** * The statements at concrete inputs, on the reference runtime *)

Local Open Scope list_scope.

(** [delete] at a store where the deleted key holds a value other than
    [None]. *)
Example delete_present_key :
  KVStore.delete [("a", VInt 1); ("b", VStr "x")] "b"
  = (ok_response [("deleted", VBool true)], [("a", VInt 1)]).
Proof. reflexivity. Qed.

(** C3, as stated, fails: a LOAN request without [username] succeeds. *)
Lemma loan_without_username_succeeds :
  @dispatch Ref.runtime
    (VDict [("cmd", VStr "LOAN"); ("loan_amount", VInt 1000);
            ("years", VInt 1); ("annual_rate", VInt 0)])
    KVStore.init
  = (Return (ok_response [("monthly_payment", VFloat 0x1.4d51eb851eb85p+6);
                          ("total_payment", VFloat 1000)]),
     KVStore.init).
Proof. vm_compute. reflexivity. Qed.

(** A LOAN request whose [loan_amount] does not convert, and whose other
    fields are missing: the error is the text of the [ValueError]. *)
Example loan_with_unconvertible_amount :
  @dispatch Ref.runtime
    (VDict [("cmd", VStr "loan"); ("loan_amount", VStr "abc")]) KVStore.init
  = (Return (error_response "could not convert string to float: 'abc'"),
     KVStore.init)
  /\
  @dispatch Ref.runtime
    (VDict [("cmd", VStr "loan"); ("loan_amount", VInt 1000);
            ("years", VStr "2.5")]) KVStore.init
  = (Return (error_response "invalid literal for int() with base 10: '2.5'"),
     KVStore.init).
Proof. split; vm_compute; reflexivity. Qed.

Lemma loan_missing_field_witness :
  @dispatch Ref.runtime
    (VDict [("cmd", VStr "loan"); ("loan_amount", VFloat 2500);
            ("annual_rate", VInt 5)]) KVStore.init
  = (Return (error_response "missing field: 'years'"), KVStore.init).
Proof.
  refine (proj1 (proj2 (proj2
            (@loan_missing_field Ref.runtime
               [("cmd", VStr "loan"); ("loan_amount", VFloat 2500);
                ("annual_rate", VInt 5)] KVStore.init _)))
            (VFloat 2500) 2500%float _ _ _);
    reflexivity.
Defined.

Lemma dispatch_case_insensitive_witness :
  @dispatch Ref.runtime
    (VDict [("cmd", VStr "set"); ("key", VStr "a"); ("value", VInt 1)])
    KVStore.init
  = @dispatch Ref.runtime
      (VDict [("key", VStr "a"); ("value", VInt 1); ("cmd", VStr "SeT")])
      KVStore.init.
Proof.
  apply (@dispatch_case_insensitive Ref.runtime
           [("cmd", VStr "set"); ("key", VStr "a"); ("value", VInt 1)]
           [("key", VStr "a"); ("value", VInt 1); ("cmd", VStr "SeT")]
           "set" "SeT" KVStore.init);
    try reflexivity.
  intros k Hk. cbn [dict_lookup].
  destruct ("cmd" =? k)%string eqn:E;
    [apply String.eqb_eq in E; congruence | reflexivity].
Defined.

Lemma set_then_get_same_key_witness :
  @dispatch Ref.runtime
    (VDict [("cmd", VStr "set"); ("key", VInt 5); ("value", VStr "x")])
    [("a", VNone)]
  = (Return (ok_response []), [("a", VNone); ("5", VStr "x")]) /\
  dict_lookup [("a", VNone); ("5", VStr "x")] "5" = Some (VStr "x") /\
  @dispatch Ref.runtime (VDict [("cmd", VStr "GET"); ("key", VInt 5)])
    [("a", VNone); ("5", VStr "x")]
  = (Return (ok_response [("value", VStr "x")]),
     [("a", VNone); ("5", VStr "x")]) /\
  snd (@dispatch Ref.runtime (VDict [("cmd", VStr "del"); ("key", VInt 5)])
         [("a", VNone); ("5", VStr "x")])
  = [("a", VNone)].
Proof.
  apply (@set_then_get_same_key Ref.runtime
           [("cmd", VStr "set"); ("key", VInt 5); ("value", VStr "x")]
           [("cmd", VStr "GET"); ("key", VInt 5)]
           [("cmd", VStr "del"); ("key", VInt 5)]
           (VInt 5) (VStr "x") [("a", VNone)]);
    try reflexivity.
  discriminate.
Defined.

Lemma dispatch_returns_on_string_cmd_witness :
  exists response store',
    @dispatch Ref.runtime (VDict [("cmd", VStr "keys")]) [("a", VNone)]
    = (Return response, store').
Proof.
  apply (@dispatch_returns_on_string_cmd Ref.runtime
           [("cmd", VStr "keys")] [("a", VNone)]).
  exact I.
Defined.

Lemma dispatch_keeps_unique_keys_witness :
  unique_keys
    (snd (@dispatch Ref.runtime
            (VDict [("cmd", VStr "SET"); ("key", VStr "a"); ("value", VInt 2)])
            [("a", VInt 1); ("b", VNone)])).
Proof.
  apply (@dispatch_keeps_unique_keys Ref.runtime).
  repeat constructor; simpl; intuition discriminate.
Defined.

Lemma dispatch_unknown_command_witness :
  @dispatch Ref.runtime (VDict [("cmd", VStr "foo")]) KVStore.init
  = (Return (error_response "unknown cmd: FOO"), KVStore.init).
Proof.
  apply (@dispatch_unknown_command Ref.runtime [("cmd", VStr "foo")] "foo"
           KVStore.init); [reflexivity|].
  simpl. intuition discriminate.
Defined.

(** [round(x, 2)] on values whose decimal form is not a float: the exact
    binary value decides, and ties go to the even digit. *)
Example float_round_examples :
  float_round 0x1.5666666666666p+1 2 = 0x1.55c28f5c28f5cp+1%float /\
  float_round 0.125 2 = 0x1.eb851eb851eb8p-4%float /\
  float_round 0.375 2 = 0x1.851eb851eb852p-2%float /\
  float_round (1000 / 12) 2 = 0x1.4d51eb851eb85p+6%float /\
  float_round neg_zero 2 = neg_zero /\
  float_round infinity 2 = infinity.
Proof. vm_compute. repeat split; reflexivity. Qed.

(** C6, as stated, fails: with [years = 0] nothing is returned. *)
Lemma zero_years_raises :
  @calculate_payments Ref.runtime 1000 0 0
  = Raise (ZeroDivisionError "float division by zero").
Proof. vm_compute. reflexivity. Qed.

Lemma calculate_payments_spec_witness :
  @calculate_payments Ref.runtime 1000 1 0
  = Return (0x1.4d51eb851eb85p+6, 1000)%float /\
  @calculate_payments Ref.runtime 10000 5 6
  = Return (0x1.82a8f5c28f5c3p+7, 0x1.6a7d70a3d70a4p+13)%float.
Proof.
  split.
  - refine (proj1 (proj1 (@calculate_payments_spec Ref.runtime 1000 1 0) _)
              12%float _ _); reflexivity.
  - refine (proj2 (@calculate_payments_spec Ref.runtime 10000 5 6) _
              0x1.7b9522f210fa9p-1%float 60%float _ _ _ _);
      vm_compute; reflexivity.
Defined.

Lemma read_frame_length_check_witness :
  @read_frame Ref.runtime
    (Reader [Byte.x01; Byte.x00; Byte.x00; Byte.x00; Byte.x7b; Byte.x7d]
            PeerSilent)
  = (Raise (ValueError "invalid frame length"),
     Reader [Byte.x7b; Byte.x7d] PeerSilent) /\
  @read_frame Ref.runtime
    (Reader [Byte.x00; Byte.x00; Byte.x00; Byte.x02; Byte.x7b; Byte.x7d;
             Byte.x00] PeerSilent)
  = (Return (VDict []), Reader [Byte.x00] PeerSilent).
Proof.
  split.
  - refine (proj1 (@read_frame_length_check Ref.runtime Byte.x01 Byte.x00
                     Byte.x00 Byte.x00 [Byte.x7b; Byte.x7d] PeerSilent
                     16777216%N _) _); reflexivity.
  - refine (proj1 (proj2 (@read_frame_length_check Ref.runtime Byte.x00
                            Byte.x00 Byte.x00 Byte.x02
                            [Byte.x7b; Byte.x7d; Byte.x00] PeerSilent 2%N _))
              _ [Byte.x7b; Byte.x7d] [Byte.x00] _ _);
      try reflexivity.
    discriminate.
Defined.

Lemma frame_round_trip_witness :
  (exists data,
      @write_frame Ref.runtime (ok_response [("reply", VStr "PONG")])
      = Return data /\
      @read_frame Ref.runtime (Reader (data ++ [Byte.x00]) PeerClosed)
      = (Return (ok_response [("reply", VStr "PONG")]),
         Reader [Byte.x00] PeerClosed)) /\
  (exists data,
      @write_frame Ref.runtime (ok_response [("reply", VStr "PONG")])
      = Return data /\
      @client_read_frame Ref.runtime (Reader (data ++ [Byte.x00]) PeerClosed)
      = (Return (ok_response [("reply", VStr "PONG")]),
         Reader [Byte.x00] PeerClosed)).
Proof.
  destruct (@frame_round_trip Ref.runtime
              (ok_response [("reply", VStr "PONG")])
              (ok_response [("reply", VStr "PONG")])
              [Byte.x00] PeerClosed eq_refl) as [Hserver Hclient].
  split; [apply Hserver | apply Hclient]; vm_compute; [discriminate | reflexivity].
Defined.

Lemma idle_timeout_closes_connection_witness :
  @handle_client Ref.runtime ("127.0.0.1", 50000%Z) (Reader [] PeerSilent)
    KVStore.init
  = ([Write (Ref.frame idle_response);
      Log (LogTimeout ("127.0.0.1", 50000%Z) idle_response); Close],
     KVStore.init, Finished).
Proof.
  refine (proj2 (proj1 (@idle_timeout_closes_connection Ref.runtime
                          ("127.0.0.1", 50000%Z) (Reader [] PeerSilent)
                          KVStore.init)
                   (Reader [] PeerSilent) (Ref.frame idle_response) _ _));
    reflexivity.
Defined.

Lemma dispatch_exception_ends_connection_witness :
  @handle_client Ref.runtime ("127.0.0.1", 50000%Z)
    (Reader (Ref.frame (VDict [("cmd", VInt 5)])
               ++ Ref.frame (VDict [("cmd", VStr "PING")])) PeerSilent)
    KVStore.init
  = ([Close], KVStore.init,
     Uncaught (AttributeError "'int' object has no attribute 'upper'")).
Proof.
  refine (@dispatch_exception_ends_connection Ref.runtime
            ("127.0.0.1", 50000%Z) _
            (Reader (Ref.frame (VDict [("cmd", VStr "PING")])) PeerSilent)
            KVStore.init KVStore.init (VDict [("cmd", VInt 5)]) _ _ _);
    reflexivity.
Defined.

(** A session on the wire: SET, GET, an unknown command and PING, then the
    peer closes.  Each request is answered in order, the unknown command
    leaves the connection usable, and the writer is closed at the end. *)
Example session_on_the_wire :
  let peer := ("127.0.0.1", 50000%Z) in
  let set := VDict [("cmd", VStr "SET"); ("key", VStr "a"); ("value", VStr "x")] in
  let get := VDict [("cmd", VStr "GET"); ("key", VStr "a")] in
  let foo := VDict [("cmd", VStr "FOO")] in
  let ping := VDict [("cmd", VStr "ping")] in
  @handle_client Ref.runtime peer
    (Reader (Ref.frame set ++ Ref.frame get ++ Ref.frame foo ++ Ref.frame ping)
            PeerClosed)
    KVStore.init
  = ([Write (Ref.frame (ok_response []));
      Log (LogExchange peer set (ok_response []));
      Write (Ref.frame (ok_response [("value", VStr "x")]));
      Log (LogExchange peer get (ok_response [("value", VStr "x")]));
      Write (Ref.frame (error_response "unknown cmd: FOO"));
      Log (LogExchange peer foo (error_response "unknown cmd: FOO"));
      Write (Ref.frame (ok_response [("reply", VStr "PONG")]));
      Log (LogExchange peer ping (ok_response [("reply", VStr "PONG")]));
      Close],
     [("a", VStr "x")], Finished).
Proof. vm_compute. reflexivity. Qed.

(** A LOAN exchange: the payload of the frame is the JSON text of the
    request, and the payments of 10000 over 5 years at 6 percent print as
    193.33 and 11599.68. *)
Example loan_on_the_wire :
  string_of_list_byte
    (skipn 4 (Ref.frame
                (VDict [("cmd", VStr "LOAN"); ("username", VStr "ann");
                        ("loan_amount", VInt 10000); ("years", VInt 5);
                        ("annual_rate", VInt 6)])))
  = Ref.dumps (VDict [("cmd", VStr "LOAN"); ("username", VStr "ann");
                      ("loan_amount", VInt 10000); ("years", VInt 5);
                      ("annual_rate", VInt 6)]) /\
  @dispatch Ref.runtime
    (VDict [("cmd", VStr "LOAN"); ("username", VStr "ann");
            ("loan_amount", VInt 10000); ("years", VInt 5);
            ("annual_rate", VInt 6)]) KVStore.init
  = (Return (ok_response
               [("monthly_payment", VFloat 0x1.82a8f5c28f5c3p+7);
                ("total_payment", VFloat 0x1.6a7d70a3d70a4p+13)]),
     KVStore.init) /\
  Ref.float_json 0x1.82a8f5c28f5c3p+7 = "193.33" /\
  Ref.float_json 0x1.6a7d70a3d70a4p+13 = "11599.68".
Proof. vm_compute. repeat split; reflexivity. Qed.

(** * More of the server, and the client *)

(** ** The loop and its fuel *)

Section LoopFacts.
Context {rt : PyRuntime}.

(** More fuel than the loop needs changes nothing. *)
Lemma client_loop_more_fuel (fuel : nat) (peer : peername) :
  forall (fuel' : nat) (rd : reader) (store : KVStore.t),
    (List.length (pending rd) < fuel)%nat -> (fuel <= fuel')%nat ->
    client_loop fuel' peer rd store = client_loop fuel peer rd store.
Proof.
  induction fuel as [|fuel IH]; intros fuel' rd store Hlen Hle; [lia|].
  destruct fuel' as [|fuel']; [lia|].
  cbn [client_loop].
  destruct (read_frame rd) as [r rd'] eqn:Er.
  apply read_frame_consumes in Er.
  assert (forall st, r <> Raise TimeoutError -> r <> Raise IncompleteReadError ->
                     client_loop fuel' peer rd' st = client_loop fuel peer rd' st)
    as Hnext.
  { intros st H1 H2. apply IH; [|lia].
    destruct Er as [?|[?|?]]; [tauto | tauto | lia]. }
  destruct r as [req|e].
  - destruct (dispatch req store) as [[response|e] store']; [|reflexivity].
    destruct (write_frame response); [|reflexivity].
    now rewrite Hnext by discriminate.
  - destruct e; try reflexivity;
      (destruct (write_frame _); [|reflexivity];
       now rewrite Hnext by discriminate).
Qed.

Lemma handle_client_as_loop (fuel : nat) (peer : peername) (rd : reader)
    (store : KVStore.t) :
  (List.length (pending rd) < fuel)%nat ->
  handle_client peer rd store
  = let '(effects, store', out) := client_loop fuel peer rd store in
    ((effects ++ [Close])%list, store', out).
Proof.
  intros H. unfold handle_client.
  now rewrite (client_loop_more_fuel (S (List.length (pending rd))) peer fuel)
    by lia.
Qed.

(** A round that answers a request, then the rest of the run. *)
Lemma handle_client_exchange (peer : peername) (rd rd' : reader)
    (store store' : KVStore.t) (req response : value) (data : list byte) :
  read_frame rd = (Return req, rd') ->
  dispatch req store = (Return response, store') ->
  write_frame response = Return data ->
  handle_client peer rd store
  = let '(effects, store'', out) := handle_client peer rd' store' in
    (Write data :: Log (LogExchange peer req response) :: effects, store'', out).
Proof.
  intros Hr Hd Hw.
  assert (List.length (pending rd') < List.length (pending rd))%nat as Hlt.
  { destruct (read_frame_consumes _ _ _ Hr) as [?|[?|?]];
      [discriminate | discriminate | assumption]. }
  unfold handle_client at 1. cbn [client_loop]. rewrite Hr, Hd, Hw.
  rewrite (handle_client_as_loop (List.length (pending rd)) peer rd' store')
    by exact Hlt.
  now destruct (client_loop (List.length (pending rd)) peer rd' store')
    as [[eff st] o].
Qed.

(** A round whose read fails, other than by a time-out or the end of the
    stream, then the rest of the run. *)
Lemma handle_client_read_error (peer : peername) (rd rd' : reader)
    (store : KVStore.t) (e : exn) (data : list byte) :
  read_frame rd = (Raise e, rd') ->
  e <> TimeoutError -> e <> IncompleteReadError ->
  write_frame (error_response (str_exn e)) = Return data ->
  handle_client peer rd store
  = let '(effects, store', out) := handle_client peer rd' store in
    (Write data :: Log (LogReadError peer (str_exn e)) :: effects, store', out).
Proof.
  intros Hr Ht Hi Hw.
  assert (List.length (pending rd') < List.length (pending rd))%nat as Hlt.
  { destruct (read_frame_consumes _ _ _ Hr) as [E|[E|?]];
      [injection E; contradiction | injection E; contradiction | assumption]. }
  unfold handle_client at 1. cbn [client_loop]. rewrite Hr.
  rewrite (handle_client_as_loop (List.length (pending rd)) peer rd' store)
    by exact Hlt.
  destruct e; try contradiction; rewrite Hw;
    now destruct (client_loop (List.length (pending rd)) peer rd' store)
      as [[eff st] o].
Qed.

(** The end of the stream at the top of the loop. *)
Lemma handle_client_end_of_stream (peer : peername) (rd rd' : reader)
    (store : KVStore.t) :
  read_frame rd = (Raise IncompleteReadError, rd') ->
  handle_client peer rd store = ([Close], store, Finished).
Proof.
  intros Hr. unfold handle_client. cbn [client_loop]. now rewrite Hr.
Qed.

(** What [write_frame] gives: a header of four bytes that declares the
    length of the text, then the text. *)
Lemma write_frame_ok (r : value) :
  (N.of_nat (List.length (json_dumps r)) < 2 ^ 32)%N ->
  exists b3 b2 b1 b0,
    write_frame r = Return ([b3; b2; b1; b0] ++ json_dumps r)%list /\
    HEADER.unpack [b3; b2; b1; b0]
    = Return (N.of_nat (List.length (json_dumps r))).
Proof.
  intros Hn. destruct (header_unpack_pack _ Hn) as (b3 & b2 & b1 & b0 & Hp & Hu).
  exists b3, b2, b1, b0. unfold write_frame. now rewrite Hp.
Qed.

(** Reading a frame: the text between the header and what follows. *)
Lemma read_frame_of_frame (b3 b2 b1 b0 : byte) (body rest : list byte)
    (e : ending) :
  HEADER.unpack [b3; b2; b1; b0] = Return (N.of_nat (List.length body)) ->
  (N.of_nat (List.length body) <= 10000000)%N ->
  read_frame (Reader ([b3; b2; b1; b0] ++ body ++ rest) e)
  = (json_loads body, Reader rest e).
Proof.
  intros Hu Hle. unfold read_frame.
  change ([b3; b2; b1; b0] ++ body ++ rest)%list
    with (b3 :: b2 :: b1 :: b0 :: body ++ rest)%list.
  rewrite read_frame_header, Hu.
  assert ((N.of_nat (List.length body) <? 0)%N = false) as ->
      by (apply N.ltb_ge, N.le_0_l).
  assert ((10000000 <? N.of_nat (List.length body))%N = false) as ->
      by (apply N.ltb_ge; exact Hle).
  cbn [orb]. now rewrite readexactly_app.
Qed.

Lemma client_read_frame_of_frame (b3 b2 b1 b0 : byte) (body rest : list byte)
    (e : ending) :
  HEADER.unpack [b3; b2; b1; b0] = Return (N.of_nat (List.length body)) ->
  client_read_frame (Reader ([b3; b2; b1; b0] ++ body ++ rest) e)
  = (json_loads body, Reader rest e).
Proof.
  intros Hu. unfold client_read_frame.
  change ([b3; b2; b1; b0] ++ body ++ rest)%list
    with (b3 :: b2 :: b1 :: b0 :: body ++ rest)%list.
  rewrite read_frame_header, Hu. now rewrite readexactly_app.
Qed.
End LoopFacts.

(** ** The store *)

(** X7.  What [set] does, for every store: the key then holds the value
    and [get] answers it, the other keys keep their values, an old key
    keeps its place in the answer of [keys()] and a new one comes last
    there, and no key appears twice. *)
Lemma set_spec (store : KVStore.t) (key : string) (v : value) :
  unique_keys store ->
  let (response, store') := KVStore.set store key v in
  response = ok_response [] /\
  KVStore.get store' key = (ok_response [("value", v)], store') /\
  (forall k, k <> key -> KVStore.get store' k
                         = (fst (KVStore.get store k), store')) /\
  (forall ks,
      KVStore.keys store = (ok_response [("keys", VList ks)], store) ->
      KVStore.keys store'
      = (ok_response
           [("keys", VList (if dict_contains store key then ks
                            else ks ++ [VStr key])%list)], store')) /\
  dict_keys store'
  = (if dict_contains store key then dict_keys store
     else dict_keys store ++ [key])%list /\
  unique_keys store'.
Proof.
  intros Hu. unfold KVStore.set, KVStore.get.
  rewrite dict_lookup_setitem_same.
  assert (dict_keys (dict_setitem store key v)
          = (if dict_contains store key then dict_keys store
             else dict_keys store ++ [key])%list) as Hkeys.
  { unfold dict_contains. clear Hu.
    induction store as [|[k0 v0] store IH]; [reflexivity|].
    cbn [dict_setitem dict_lookup]. destruct (k0 =? key)%string; [reflexivity|].
    cbn [dict_keys map fst] in *. fold (dict_keys (dict_setitem store key v)).
    fold (dict_keys store).
    rewrite IH. now destruct (dict_lookup store key). }
  repeat split.
  - intros k Hk. rewrite dict_lookup_setitem_other by congruence.
    now destruct (dict_lookup store k).
  - intros ks Hks. unfold KVStore.keys in *.
    injection Hks as <-. rewrite Hkeys.
    destruct (dict_contains store key); [reflexivity|].
    now rewrite map_app.
  - exact Hkeys.
  - now apply unique_keys_setitem.
Qed.

Lemma set_spec_witness :
  let (response, store') :=
    KVStore.set [("a", VInt 1); ("b", VInt 2)] "c" (VStr "x") in
  response = ok_response [] /\
  KVStore.get store' "c" = (ok_response [("value", VStr "x")], store') /\
  (forall k, k <> "c" ->
             KVStore.get store' k
             = (fst (KVStore.get [("a", VInt 1); ("b", VInt 2)] k), store')) /\
  (forall ks,
      KVStore.keys [("a", VInt 1); ("b", VInt 2)]
      = (ok_response [("keys", VList ks)], [("a", VInt 1); ("b", VInt 2)]) ->
      KVStore.keys store'
      = (ok_response [("keys", VList (ks ++ [VStr "c"])%list)], store')) /\
  dict_keys store' = ["a"; "b"; "c"] /\
  unique_keys store'.
Proof.
  apply (set_spec [("a", VInt 1); ("b", VInt 2)] "c" (VStr "x")).
  repeat constructor; simpl; intuition discriminate.
Defined.

(** ** The dispatcher *)

Section MoreDispatch.
Context {rt : PyRuntime}.

(** X8.  Only SET, DEL and CLEAR touch the store: any other request, also
    one that makes the dispatch step raise, leaves the store as it was. *)
Lemma dispatch_changes_store_only_by_set_del_clear (req : value)
    (store : KVStore.t) :
  match command_of req with
  | Return (_, cmd) =>
      if existsb (String.eqb cmd) ["SET"; "DEL"; "CLEAR"] then True
      else snd (dispatch req store) = store
  | Raise _ => snd (dispatch req store) = store
  end.
Proof.
  unfold dispatch. destruct (command_of req) as [[d cmd]|e]; [|reflexivity].
  cbn [existsb].
  destruct (cmd =? "SET") eqn:Es; [exact I|].
  destruct (cmd =? "DEL") eqn:Ed; [exact I|].
  destruct (cmd =? "CLEAR") eqn:Ec; [exact I|].
  cbn [orb].
  destruct (cmd =? "PING"); [reflexivity|].
  destruct (cmd =? "LOAN"); [reflexivity|].
  destruct (cmd =? "GET").
  { destruct (is_None _); [reflexivity|].
    unfold KVStore.get. now destruct (dict_lookup store _). }
  destruct (cmd =? "KEYS"); reflexivity.
Qed.

(** X9.  SET, GET and DEL without a key, or with the key [null], and SET
    without a value, are answered with the error that names what the
    command requires, and the store is left alone. *)
Lemma dispatch_requires_key (d : dict value) (cmd : string)
    (store : KVStore.t) :
  command_of (VDict d) = Return (d, cmd) ->
  (cmd = "SET" ->
   dict_get d "key" = VNone \/ dict_lookup d "value" = None ->
   dispatch (VDict d) store
   = (Return (error_response "SET requires 'key' and 'value'"), store)) /\
  (cmd = "GET" -> dict_get d "key" = VNone ->
   dispatch (VDict d) store
   = (Return (error_response "GET requires 'key'"), store)) /\
  (cmd = "DEL" -> dict_get d "key" = VNone ->
   dispatch (VDict d) store
   = (Return (error_response "DEL requires 'key'"), store)).
Proof.
  intros Hc. unfold dispatch. rewrite Hc. repeat split.
  - intros -> [Hk | Hv]; cbn [String.eqb Ascii.eqb Bool.eqb].
    + now rewrite Hk.
    + unfold dict_contains. rewrite Hv. cbn [negb].
      now rewrite orb_true_r.
  - intros -> Hk. cbn [String.eqb Ascii.eqb Bool.eqb]. now rewrite Hk.
  - intros -> Hk. cbn [String.eqb Ascii.eqb Bool.eqb]. now rewrite Hk.
Qed.
End MoreDispatch.

Lemma dispatch_requires_key_witness :
  @dispatch Ref.runtime (VDict [("cmd", VStr "set"); ("key", VStr "a")])
    [("a", VInt 1)]
  = (Return (error_response "SET requires 'key' and 'value'"), [("a", VInt 1)]).
Proof.
  refine (proj1 (@dispatch_requires_key Ref.runtime
                   [("cmd", VStr "set"); ("key", VStr "a")] "SET"
                   [("a", VInt 1)] _) _ _);
    [reflexivity | reflexivity | right; reflexivity].
Defined.

(** ** Loan math at its edges *)

Section LoanEdges.
Context {rt : PyRuntime}.

(** X10.  Zero years never give a payment: whatever the amount and the
    rate, [calculate_payments] raises [ZeroDivisionError] (given that
    [x ** 0] is [1.0], as it is in Python). *)
Lemma calculate_payments_zero_years (loan_amount annual_rate : float) :
  (forall x, float_pow x 0 = Return 1%float) ->
  calculate_payments loan_amount 0 annual_rate
  = Raise (ZeroDivisionError "float division by zero").
Proof.
  intros Hpow. unfold calculate_payments. cbn [Z.mul].
  destruct (annual_rate / 100 / 12 =? 0)%float; [reflexivity|].
  unfold float_div at 1.
  destruct (1 + annual_rate / 100 / 12 =? 0)%float; [reflexivity|].
  cbn [bind]. rewrite Hpow. reflexivity.
Qed.

End LoanEdges.

Lemma calculate_payments_zero_years_witness :
  @calculate_payments Ref.runtime 10000 0 6
  = Raise (ZeroDivisionError "float division by zero").
Proof.
  apply (@calculate_payments_zero_years Ref.runtime). reflexivity.
Defined.


(** ** Runs of the handler *)

Section MoreHandler.
Context {rt : PyRuntime}.

(** More fuel than the loop needs changes nothing, with the logger too. *)
Lemma client_loop_logging_more_fuel
    (fails : JsonlLogger.t -> log_record -> option exn) (fuel : nat)
    (peer : peername) :
  forall (fuel' : nat) (rd : reader) (store : KVStore.t) (file : JsonlLogger.t),
    (List.length (pending rd) < fuel)%nat -> (fuel <= fuel')%nat ->
    client_loop_logging fails fuel' peer rd store file
    = client_loop_logging fails fuel peer rd store file.
Proof.
  induction fuel as [|fuel IH]; intros fuel' rd store file Hlen Hle; [lia|].
  destruct fuel' as [|fuel']; [lia|].
  cbn [client_loop_logging].
  destruct (read_frame rd) as [r rd'] eqn:Er.
  apply read_frame_consumes in Er.
  assert (forall st f,
             r <> Raise TimeoutError -> r <> Raise IncompleteReadError ->
             client_loop_logging fails fuel' peer rd' st f
             = client_loop_logging fails fuel peer rd' st f)
    as Hnext.
  { intros st f H1 H2. apply IH; [|lia].
    destruct Er as [?|[?|?]]; [tauto | tauto | lia]. }
  destruct r as [req|e].
  - destruct (dispatch req store) as [[response|e] store']; [|reflexivity].
    destruct (write_frame response); [|reflexivity].
    destruct (JsonlLogger.log fails file _); [|reflexivity].
    now rewrite Hnext by discriminate.
  - destruct e; try reflexivity;
      (destruct (write_frame _); [|reflexivity];
       destruct (JsonlLogger.log fails file _); [|reflexivity];
       now rewrite Hnext by discriminate).
Qed.

Lemma handle_client_logging_as_loop
    (fails : JsonlLogger.t -> log_record -> option exn) (fuel : nat)
    (peer : peername) (rd : reader) (store : KVStore.t) (file : JsonlLogger.t) :
  (List.length (pending rd) < fuel)%nat ->
  handle_client_logging fails peer rd store file
  = let '(effects, store', file', out) :=
      client_loop_logging fails fuel peer rd store file in
    ((effects ++ [Close])%list, store', file', out).
Proof.
  intros H. unfold handle_client_logging.
  now rewrite (client_loop_logging_more_fuel fails
                 (S (List.length (pending rd))) peer fuel) by lia.
Qed.

(** A round that answers a request and logs it, then the rest of the run. *)
Lemma handle_client_logging_exchange
    (fails : JsonlLogger.t -> log_record -> option exn) (peer : peername)
    (rd rd' : reader) (store store' : KVStore.t) (file : JsonlLogger.t)
    (req response : value) (data : list byte) :
  read_frame rd = (Return req, rd') ->
  dispatch req store = (Return response, store') ->
  write_frame response = Return data ->
  fails file (LogExchange peer req response) = None ->
  handle_client_logging fails peer rd store file
  = let '(effects, store'', file', out) :=
      handle_client_logging fails peer rd' store'
        (file ++ [LogExchange peer req response])%list in
    (Write data :: Log (LogExchange peer req response) :: effects,
     store'', file', out).
Proof.
  intros Hr Hd Hw Hl.
  assert (List.length (pending rd') < List.length (pending rd))%nat as Hlt.
  { destruct (read_frame_consumes _ _ _ Hr) as [?|[?|?]];
      [discriminate | discriminate | assumption]. }
  unfold handle_client_logging at 1. cbn [client_loop_logging].
  rewrite Hr, Hd, Hw. unfold JsonlLogger.log. rewrite Hl.
  rewrite (handle_client_logging_as_loop fails (List.length (pending rd)) peer
             rd' store') by exact Hlt.
  now destruct (client_loop_logging fails (List.length (pending rd)) peer rd'
                  store' _) as [[[eff st] f] o].
Qed.

(** A round that answers a request and fails to log it. *)
Lemma handle_client_logging_failure
    (fails : JsonlLogger.t -> log_record -> option exn) (peer : peername)
    (rd rd' : reader) (store store' : KVStore.t) (file : JsonlLogger.t)
    (req response : value) (data : list byte) (err : exn) :
  read_frame rd = (Return req, rd') ->
  dispatch req store = (Return response, store') ->
  write_frame response = Return data ->
  fails file (LogExchange peer req response) = Some err ->
  handle_client_logging fails peer rd store file
  = ([Write data; Close], store', file, Uncaught err).
Proof.
  intros Hr Hd Hw Hl.
  unfold handle_client_logging. cbn [client_loop_logging].
  rewrite Hr, Hd, Hw. unfold JsonlLogger.log. now rewrite Hl.
Qed.

(** With a logger that takes every record, the handler with its logger is
    [handle_client], and the file receives the records of its [Log]
    effects. *)
Lemma client_loop_logging_never_failing
    (fails : JsonlLogger.t -> log_record -> option exn) (fuel : nat)
    (peer : peername) :
  (forall file record, fails file record = None) ->
  forall (rd : reader) (store : KVStore.t) (file : JsonlLogger.t),
    client_loop_logging fails fuel peer rd store file
    = let '(effects, store', out) := client_loop fuel peer rd store in
      (effects, store', (file ++ logged effects)%list, out).
Proof.
  intros Hok.
  induction fuel as [|fuel IH]; intros rd store file;
    [simpl; now rewrite app_nil_r|].
  cbn [client_loop_logging client_loop]. unfold JsonlLogger.log.
  destruct (read_frame rd) as [[req|e] rd'].
  - destruct (dispatch req store) as [[response|e] store'];
      [|simpl; now rewrite app_nil_r].
    destruct (write_frame response) as [data|e];
      [|simpl; now rewrite app_nil_r].
    rewrite Hok, IH.
    destruct (client_loop fuel peer rd' store') as [[eff st] o].
    simpl. now rewrite <- app_assoc.
  - destruct e; try (simpl; now rewrite app_nil_r);
      try (destruct (write_frame (error_response _)) as [data|e'];
           [|simpl; now rewrite app_nil_r];
           rewrite Hok, IH;
           destruct (client_loop fuel peer rd' store) as [[eff st] o];
           simpl; now rewrite <- app_assoc).
    destruct (write_frame idle_response) as [data|e'];
      [|simpl; now rewrite app_nil_r].
    now rewrite Hok.
Qed.

(** The loop writes and logs in pairs, up to an append that raises. *)
Lemma client_loop_logging_in_pairs
    (fails : JsonlLogger.t -> log_record -> option exn) (fuel : nat)
    (peer : peername) :
  forall (rd : reader) (store : KVStore.t) (file : JsonlLogger.t),
  exists body tail store' file' out,
    client_loop_logging fails fuel peer rd store file
    = ((body ++ tail)%list, store', file', out) /\
    logged_in_pairs peer body /\
    file' = (file ++ logged body)%list /\
    (tail = [] \/
     exists data record e,
       tail = [Write data] /\
       write_frame (recorded_response record) = Return data /\
       fails file' record = Some e /\ out = Uncaught e).
Proof.
  assert (forall (store : KVStore.t) (file : JsonlLogger.t) (out : outcome),
             exists body tail store' file' out',
               (([] : list effect), store, file, out)
               = ((body ++ tail)%list, store', file', out') /\
               logged_in_pairs peer body /\
               file' = (file ++ logged body)%list /\
               (tail = [] \/
                exists data record e,
                  tail = [Write data] /\
                  write_frame (recorded_response record) = Return data /\
                  fails file' record = Some e /\ out' = Uncaught e))
    as Hnil.
  { intros store file out. exists [], [], store, file, out.
    repeat split; [constructor | simpl; now rewrite app_nil_r | now left]. }
  assert (forall (store : KVStore.t) (file : JsonlLogger.t) (data : list byte)
                 (record : log_record) (e : exn),
             write_frame (recorded_response record) = Return data ->
             fails file record = Some e ->
             exists body tail store' file' out',
               ([Write data], store, file, Uncaught e)
               = ((body ++ tail)%list, store', file', out') /\
               logged_in_pairs peer body /\
               file' = (file ++ logged body)%list /\
               (tail = [] \/
                exists data record e,
                  tail = [Write data] /\
                  write_frame (recorded_response record) = Return data /\
                  fails file' record = Some e /\ out' = Uncaught e))
    as Hfail.
  { intros store file data record e Hw Hf.
    exists [], [Write data], store, file, (Uncaught e).
    repeat split; [constructor | simpl; now rewrite app_nil_r |].
    right. now exists data, record, e. }
  induction fuel as [|fuel IH]; intros rd store file; [apply Hnil|].
  cbn [client_loop_logging]. unfold JsonlLogger.log.
  destruct (read_frame rd) as [[req|e] rd'].
  - destruct (dispatch req store) as [[response|e] store']; [|apply Hnil].
    destruct (write_frame response) as [data|e] eqn:Ew; [|apply Hnil].
    destruct (fails file (LogExchange peer req response)) as [err|] eqn:Ef;
      [now apply (Hfail store' file data (LogExchange peer req response))|].
    destruct (IH rd' store' (file ++ [LogExchange peer req response])%list)
      as (body & tail & st & f & o & -> & Hp & Hf & Ht).
    exists (Write data :: Log (LogExchange peer req response) :: body),
      tail, st, f, o.
    repeat split; [now apply pairs_exchange | | exact Ht].
    rewrite Hf. simpl. now rewrite <- app_assoc.
  - assert (forall msg,
               exists body tail store' file' out,
                 match write_frame (error_response msg) with
                 | Raise e' => ([], store, file, Uncaught e')
                 | Return data =>
                     match
                       match fails file (LogReadError peer msg) with
                       | Some e0 => Raise e0
                       | None =>
                           Return (file ++ [LogReadError peer msg])%list
                       end
                     with
                     | Raise e' => ([Write data], store, file, Uncaught e')
                     | Return file' =>
                         let '(effects, store', file'', out) :=
                           client_loop_logging fails fuel peer rd' store file'
                         in
                         (Write data :: Log (LogReadError peer msg) :: effects,
                          store', file'', out)
                     end
                 end
                 = ((body ++ tail)%list, store', file', out) /\
                 logged_in_pairs peer body /\
                 file' = (file ++ logged body)%list /\
                 (tail = [] \/
                  exists data record e,
                    tail = [Write data] /\
                    write_frame (recorded_response record) = Return data /\
                    fails file' record = Some e /\ out = Uncaught e))
      as Herr.
    { intros msg.
      destruct (write_frame (error_response msg)) as [data|e'] eqn:Ew;
        [|apply Hnil].
      destruct (fails file (LogReadError peer msg)) as [err|] eqn:Ef;
        [now apply (Hfail store file data (LogReadError peer msg))|].
      destruct (IH rd' store (file ++ [LogReadError peer msg])%list)
        as (body & tail & st & f & o & -> & Hp & Hf & Ht).
      exists (Write data :: Log (LogReadError peer msg) :: body),
        tail, st, f, o.
      repeat split; [now apply pairs_read_error | | exact Ht].
      rewrite Hf. simpl. now rewrite <- app_assoc. }
    destruct e; try apply Hnil; try apply Herr.
    destruct (write_frame idle_response) as [data|e'] eqn:Ew; [|apply Hnil].
    destruct (fails file (LogTimeout peer idle_response)) as [err|] eqn:Ef;
      [now apply (Hfail store file data (LogTimeout peer idle_response))|].
    exists [Write data; Log (LogTimeout peer idle_response)], [], store,
      (file ++ [LogTimeout peer idle_response])%list, Finished.
    repeat split; [now apply pairs_timeout | now left].
Qed.

(** X12.  In every run of [handle_client], with a logger that may fail:
    each response written is followed at once by its record, appended to
    the log file in that order, and nothing is logged that was not written.
    The one response without a record is one whose append raised: it is
    the last thing written, no further frame is read, and the exception
    leaves the handler.  The writer is closed last in all cases. *)
Lemma handle_client_logs_each_response_or_stops
    (fails : JsonlLogger.t -> log_record -> option exn) (peer : peername)
    (rd : reader) (store : KVStore.t) (file : JsonlLogger.t) :
  exists body tail store' file' out,
    handle_client_logging fails peer rd store file
    = ((body ++ tail ++ [Close])%list, store', file', out) /\
    logged_in_pairs peer body /\
    file' = (file ++ logged body)%list /\
    (tail = [] \/
     exists data record e,
       tail = [Write data] /\
       write_frame (recorded_response record) = Return data /\
       fails file' record = Some e /\ out = Uncaught e).
Proof.
  unfold handle_client_logging.
  destruct (client_loop_logging_in_pairs fails (S (List.length (pending rd)))
              peer rd store file)
    as (body & tail & st & f & o & -> & Hp & Hf & Ht).
  exists body, tail, st, f, o. rewrite <- app_assoc. auto.
Qed.

(** X13.  Two requests sent back to back.  When the appends to the log
    succeed they are answered in that order, the second on the store the
    first one left, and the handler goes on with the bytes after them.
    When the append after the first answer raises, the first request has
    had its effect on the store and its answer, the second is never read,
    and the connection is closed with that exception. *)
Lemma pipelined_requests_and_the_log
    (fails : JsonlLogger.t -> log_record -> option exn) (peer : peername)
    (p1 p2 req1 req2 resp1 resp2 : value)
    (frame1 frame2 data1 data2 rest : list byte)
    (e : ending) (store store1 store2 : KVStore.t) (file : JsonlLogger.t) :
  write_frame p1 = Return frame1 -> write_frame p2 = Return frame2 ->
  (N.of_nat (List.length (json_dumps p1)) <= 10000000)%N ->
  (N.of_nat (List.length (json_dumps p2)) <= 10000000)%N ->
  json_loads (json_dumps p1) = Return req1 ->
  json_loads (json_dumps p2) = Return req2 ->
  dispatch req1 store = (Return resp1, store1) ->
  dispatch req2 store1 = (Return resp2, store2) ->
  write_frame resp1 = Return data1 -> write_frame resp2 = Return data2 ->
  (fails file (LogExchange peer req1 resp1) = None ->
   fails (file ++ [LogExchange peer req1 resp1])%list
     (LogExchange peer req2 resp2) = None ->
   handle_client_logging fails peer (Reader (frame1 ++ frame2 ++ rest) e)
     store file
   = let '(effects, store', file', out) :=
       handle_client_logging fails peer (Reader rest e) store2
         (file ++ [LogExchange peer req1 resp1; LogExchange peer req2 resp2])
     in
     (Write data1 :: Log (LogExchange peer req1 resp1)
        :: Write data2 :: Log (LogExchange peer req2 resp2) :: effects,
      store', file', out))
  /\
  (forall err,
      fails file (LogExchange peer req1 resp1) = Some err ->
      handle_client_logging fails peer (Reader (frame1 ++ frame2 ++ rest) e)
        store file
      = ([Write data1; Close], store1, file, Uncaught err)).
Proof.
  intros Hf1 Hf2 Hs1 Hs2 Hj1 Hj2 Hd1 Hd2 Hw1 Hw2.
  assert (forall p frame tail,
             write_frame p = Return frame ->
             (N.of_nat (List.length (json_dumps p)) <= 10000000)%N ->
             read_frame (Reader (frame ++ tail) e)
             = (json_loads (json_dumps p), Reader tail e)) as Hread.
  { intros p frame tail Hf Hs.
    destruct (write_frame_ok p) as (b3 & b2 & b1 & b0 & Hw & Hu).
    { eapply N.le_lt_trans; [exact Hs | reflexivity]. }
    rewrite Hw in Hf. injection Hf as <-.
    exact (read_frame_of_frame b3 b2 b1 b0 (json_dumps p) tail e Hu Hs). }
  split.
  - intros Hl1 Hl2.
    rewrite (handle_client_logging_exchange fails peer _
               (Reader (frame2 ++ rest) e) store store1 file req1 resp1 data1);
      [| rewrite (Hread p1) by assumption; now rewrite Hj1 | assumption ..].
    rewrite (handle_client_logging_exchange fails peer _ (Reader rest e) store1
               store2 _ req2 resp2 data2);
      [| rewrite (Hread p2) by assumption; now rewrite Hj2 | assumption ..].
    rewrite <- app_assoc. cbn [app].
    now destruct (handle_client_logging fails peer (Reader rest e) store2 _)
      as [[[eff st] f] o].
  - intros err Hl.
    apply (handle_client_logging_failure fails peer _
             (Reader (frame2 ++ rest) e) store store1 file req1 resp1 data1);
      [rewrite (Hread p1) by assumption; now rewrite Hj1 | assumption ..].
Qed.

Lemma read_frame_oversize (b3 b2 b1 b0 : byte) (rest : list byte) (e : ending)
    (L : N) :
  HEADER.unpack [b3; b2; b1; b0] = Return L -> (10000000 < L)%N ->
  read_frame (Reader (b3 :: b2 :: b1 :: b0 :: rest) e)
  = (Raise (ValueError "invalid frame length"), Reader rest e).
Proof.
  intros HL H. unfold read_frame. rewrite read_frame_header, HL.
  apply N.ltb_lt in H as ->. now rewrite orb_true_r.
Qed.

(** X14.  A frame refused for its length does not end the connection and
    is not skipped either: the handler answers with the error, logs it,
    and goes on reading right after the four bytes of the header, so the
    bytes sent as the body of that frame are read as the next frames. *)
Lemma oversize_frame_resumes_after_header (peer : peername)
    (b3 b2 b1 b0 : byte) (rest data : list byte) (e : ending) (L : N)
    (store : KVStore.t) :
  HEADER.unpack [b3; b2; b1; b0] = Return L -> (10000000 < L)%N ->
  write_frame (error_response "invalid frame length") = Return data ->
  handle_client peer (Reader (b3 :: b2 :: b1 :: b0 :: rest) e) store
  = let '(effects, store', out) := handle_client peer (Reader rest e) store in
    (Write data :: Log (LogReadError peer "invalid frame length") :: effects,
     store', out).
Proof.
  intros HL H Hw.
  apply (handle_client_read_error peer _ (Reader rest e) store
           (ValueError "invalid frame length") data);
    [now apply (read_frame_oversize b3 b2 b1 b0 rest e L) | discriminate
    | discriminate | exact Hw].
Qed.

(** X15.  A peer that closes before a frame is complete gets no response:
    with fewer than four bytes pending, or with a header that declares up
    to 10,000,000 bytes and fewer than that after it, the handler writes
    and logs nothing, leaves the store alone and closes the writer. *)
Lemma truncated_stream_closes_silently (peer : peername) (store : KVStore.t) :
  (forall short,
      (List.length short < 4)%nat ->
      handle_client peer (Reader short PeerClosed) store
      = ([Close], store, Finished)) /\
  (forall b3 b2 b1 b0 body L,
      HEADER.unpack [b3; b2; b1; b0] = Return L -> (L <= 10000000)%N ->
      (N.of_nat (List.length body) < L)%N ->
      handle_client peer (Reader (b3 :: b2 :: b1 :: b0 :: body) PeerClosed)
        store
      = ([Close], store, Finished)).
Proof.
  split.
  - intros short Hs.
    apply (handle_client_end_of_stream peer _ (Reader [] PeerClosed)).
    unfold read_frame. rewrite readexactly_short; [reflexivity|].
    cbn [pending]. unfold HEADER.size. lia.
  - intros b3 b2 b1 b0 body L HL Hle Hs.
    apply (handle_client_end_of_stream peer _ (Reader [] PeerClosed)).
    unfold read_frame. rewrite read_frame_header, HL.
    assert ((L <? 0)%N = false) as -> by (apply N.ltb_ge, N.le_0_l).
    apply N.ltb_ge in Hle as ->. cbn [orb].
    now rewrite readexactly_short by exact Hs.
Qed.
End MoreHandler.

(** ** The header *)

(** X16.  [HEADER] packs every length below 2^32 into four bytes that
    unpack to it, every four bytes unpack to a length below 2^32 that
    packs to them, a length from 2^32 on is refused, and so is a buffer
    that is not four bytes long. *)
Lemma header_pack_unpack :
  (forall n, (n < 2 ^ 32)%N ->
             exists hdr, HEADER.pack n = Return hdr /\
                         List.length hdr = HEADER.size /\
                         HEADER.unpack hdr = Return n) /\
  (forall b3 b2 b1 b0,
      exists n, HEADER.unpack [b3; b2; b1; b0] = Return n /\
                (n < 2 ^ 32)%N /\
                HEADER.pack n = Return [b3; b2; b1; b0]) /\
  (forall n, (2 ^ 32 <= n)%N ->
             exists msg, HEADER.pack n = Raise (StructError msg)) /\
  (forall hdr, List.length hdr <> HEADER.size ->
               exists msg, HEADER.unpack hdr = Raise (StructError msg)).
Proof.
  repeat split.
  - intros n Hn.
    destruct (header_unpack_pack n Hn) as (b3 & b2 & b1 & b0 & Hp & Hu).
    exists [b3; b2; b1; b0]. auto.
  - intros b3 b2 b1 b0. eexists. split; [reflexivity|].
    pose proof (Byte.to_N_bounded b3). pose proof (Byte.to_N_bounded b2).
    pose proof (Byte.to_N_bounded b1). pose proof (Byte.to_N_bounded b0).
    assert (forall x b, (x mod 256)%N = Byte.to_N b -> HEADER.byte_of_N x = b)
      as Hb.
    { intros x b E. unfold HEADER.byte_of_N. rewrite E.
      now rewrite Byte.of_to_N. }
    change (2 ^ 32)%N with 4294967296%N.
    split; [lia|].
    unfold HEADER.pack.
    match goal with |- context [(?n <? _)%N] =>
      assert ((n <? 2 ^ 32)%N = true) as ->
        by (apply N.ltb_lt; change (2 ^ 32)%N with 4294967296%N; lia)
    end.
    change (2 ^ 24)%N with 16777216%N. change (2 ^ 16)%N with 65536%N.
    change (2 ^ 8)%N with 256%N.
    repeat f_equal; apply Hb; zify; Z.to_euclidean_division_equations; lia.
  - intros n Hn. unfold HEADER.pack. apply N.ltb_ge in Hn as ->. eauto.
  - intros hdr Hl. unfold HEADER.size in Hl.
    destruct hdr as [|a [|b [|c [|d [|x hdr]]]]]; simpl in *;
      try (eexists; reflexivity).
    contradiction.
Qed.

(** ** The client *)

Section ClientFacts.
Context {rt : PyRuntime}.

(** One request on a connection of its own: what the server does with it
    and what the client reads. *)
Lemma one_shot_connection (peer : peername) (store store' : KVStore.t)
    (payload req response : value) :
  json_loads (json_dumps payload) = Return req ->
  (N.of_nat (List.length (json_dumps payload)) <= 10000000)%N ->
  dispatch req store = (Return response, store') ->
  (N.of_nat (List.length (json_dumps response)) < 2 ^ 32)%N ->
  exists sent reply,
    write_frame payload = Return sent /\
    serve_connection peer store sent = (Reader reply PeerClosed, store') /\
    client_read_frame (Reader reply PeerClosed)
    = (json_loads (json_dumps response), Reader [] PeerClosed).
Proof.
  intros Hj Hs Hd Hr.
  destruct (write_frame_ok payload) as (b3 & b2 & b1 & b0 & Hw & Hu);
    [eapply N.le_lt_trans; [exact Hs | reflexivity]|].
  destruct (write_frame_ok response Hr) as (c3 & c2 & c1 & c0 & Hw' & Hu').
  do 2 eexists. split; [exact Hw|].
  assert (read_frame (Reader ([b3; b2; b1; b0] ++ json_dumps payload) PeerClosed)
          = (Return req, Reader [] PeerClosed)) as Hread.
  { rewrite <- Hj.
    rewrite <- (app_nil_r (json_dumps payload)) at 1.
    now apply read_frame_of_frame. }
  unfold serve_connection.
  rewrite (handle_client_exchange peer _ _ store store' req response _ Hread Hd Hw').
  rewrite (handle_client_end_of_stream peer (Reader [] PeerClosed)
             (Reader [] PeerClosed) store') by reflexivity.
  unfold written. cbn [flat_map]. rewrite !app_nil_r.
  split; [reflexivity|].
  rewrite <- (app_nil_r (json_dumps response)) at 1.
  now apply client_read_frame_of_frame.
Qed.

(** X17.  [send_request] against the server: when the request travels and
    the dispatch step answers it, the client receives that answer, as
    [json.loads] reads it back, and the server's store is the one the
    dispatch step left. *)
Lemma send_request_gets_the_dispatch_response (peer : peername)
    (store store' : KVStore.t) (payload response response' : value) :
  travels payload ->
  dispatch payload store = (Return response, store') ->
  json_loads (json_dumps response) = Return response' ->
  (N.of_nat (List.length (json_dumps response)) < 2 ^ 32)%N ->
  send_request (fun sent => fst (serve_connection peer store sent)) payload
  = Return response' /\
  exists sent,
    write_frame payload = Return sent /\
    snd (serve_connection peer store sent) = store'.
Proof.
  intros [Hj Hs] Hd Hj' Hr.
  destruct (one_shot_connection peer store store' payload payload response
              Hj Hs Hd Hr) as (sent & reply & Hw & Hc & Hread).
  unfold send_request. rewrite Hw. cbn [bind]. rewrite Hc. cbn [fst].
  rewrite Hread, Hj'. split; [reflexivity|].
  exists sent. now rewrite Hc.
Qed.

(** X18.  The store outlives a connection: after a SET sent on one
    connection, [kv_get_oneshot] on a later connection reads the value. *)
Lemma value_set_on_one_connection_is_read_on_the_next (peer1 peer2 : peername)
    (store : KVStore.t) (key v : string) (sent : list byte) :
  let set := VDict [("cmd", VStr "SET"); ("key", VStr key);
                    ("value", VStr v)] in
  let get := VDict [("cmd", VStr "GET"); ("key", VStr key)] in
  travels set -> travels get ->
  travels (ok_response []) -> travels (ok_response [("value", VStr v)]) ->
  write_frame set = Return sent ->
  send_request (fun sent => fst (serve_connection peer1 store sent)) set
  = Return (ok_response []) /\
  kv_get_oneshot
    (fun sent' =>
       fst (serve_connection peer2 (snd (serve_connection peer1 store sent))
              sent'))
    key
  = Return (ok_response [("value", VStr v)]).
Proof.
  intros set get [Hj1 Hs1] [Hj2 Hs2] [Hj3 Hs3] [Hj4 Hs4] Hw.
  assert (forall x, (N.of_nat (List.length (json_dumps x)) <= 10000000)%N ->
                    (N.of_nat (List.length (json_dumps x)) < 2 ^ 32)%N) as Hlt
      by (intros x Hx; eapply N.le_lt_trans; [exact Hx | reflexivity]).
  destruct (one_shot_connection peer1 store (dict_setitem store key (VStr v))
              set set (ok_response []) Hj1 Hs1 eq_refl (Hlt _ Hs3))
    as (sent1 & reply1 & Hw1 & Hc1 & Hr1).
  rewrite Hw in Hw1. injection Hw1 as <-.
  split.
  - unfold send_request. rewrite Hw. cbn [bind]. rewrite Hc1. cbn [fst].
    now rewrite Hr1, Hj3.
  - rewrite Hc1. cbn [snd].
    assert (dispatch get (dict_setitem store key (VStr v))
            = (Return (ok_response [("value", VStr v)]),
               dict_setitem store key (VStr v))) as Hd.
    { unfold dispatch, get. cbn. unfold KVStore.get.
      now rewrite dict_lookup_setitem_same. }
    destruct (one_shot_connection peer2 _ _ get get _ Hj2 Hs2 Hd (Hlt _ Hs4))
      as (sent2 & reply2 & Hw2 & Hc2 & Hr2).
    unfold kv_get_oneshot, send_request. fold get. rewrite Hw2. cbn [bind].
    rewrite Hc2. cbn [fst]. now rewrite Hr2, Hj4.
Qed.

(** X19.  [loan_oneshot] prints what [calculate_payments] gives for the
    numbers it was called with, when its request and the answer travel. *)
Lemma loan_oneshot_gets_the_payments (peer : peername) (store : KVStore.t)
    (username : string) (amount rate monthly total : float) (years : Z) :
  let request := VDict [("cmd", VStr "LOAN"); ("username", VStr username);
                        ("loan_amount", VFloat amount); ("years", VInt years);
                        ("annual_rate", VFloat rate)] in
  let answer := ok_response [("monthly_payment", VFloat monthly);
                             ("total_payment", VFloat total)] in
  travels request -> travels answer ->
  calculate_payments amount years rate = Return (monthly, total) ->
  loan_oneshot (fun sent => fst (serve_connection peer store sent))
    username amount years rate
  = Return answer.
Proof.
  intros request answer [Hj1 Hs1] [Hj2 Hs2] Hpay.
  assert (dispatch request store = (Return answer, store)) as Hd.
  { unfold dispatch, request. cbn [command_of attr_get bind].
    cbn -[loan_response]. unfold loan_response, loan, dict_getitem.
    cbn [dict_lookup String.eqb Ascii.eqb Bool.eqb bind py_float py_int].
    now rewrite Hpay. }
  destruct (one_shot_connection peer store store request request answer
              Hj1 Hs1 Hd) as (sent & reply & Hw & Hc & Hr);
    [eapply N.le_lt_trans; [exact Hs2 | reflexivity]|].
  unfold loan_oneshot, send_request. fold request. rewrite Hw. cbn [bind].
  rewrite Hc. cbn [fst]. now rewrite Hr, Hj2.
Qed.
End ClientFacts.

Section PromptFacts.
Context {rt : PyRuntime}.

(** X20.  Whatever line the prompt accepts, the request it sends is one
    the server understands: a dict whose command is one of the seven, in
    upper case, with the fields that command needs.  The dispatch step
    never raises on it, its LOAN answer is that of [calculate_payments] on
    the numbers the client parsed, and the only errors it can answer are
    those of the loan arithmetic and [not found] for a GET. *)
Lemma interactive_request_is_understood (parts : list string) (p : value) :
  interactive_payload parts = Request p ->
  exists d cmd,
    p = VDict d /\
    command_of p = Return (d, cmd) /\
    In cmd ["PING"; "LOAN"; "SET"; "GET"; "DEL"; "KEYS"; "CLEAR"] /\
    (cmd = "LOAN" ->
     exists amount years rate a y r,
       parts = [hd "" parts; nth 1 parts ""; amount; years; rate] /\
       float_of_str amount = Return a /\ int_of_str years = Return y /\
       float_of_str rate = Return r /\
       loan d
       = bind (calculate_payments a y r)
              (fun pay =>
                 Return (ok_response [("monthly_payment", VFloat (fst pay));
                                      ("total_payment", VFloat (snd pay))]))) /\
    forall store,
    exists response store',
      dispatch p store = (Return response, store') /\
      forall msg, response = error_response msg ->
                  cmd = "LOAN" \/ (cmd = "GET" /\ msg = "not found").
Proof.
  unfold interactive_payload. destruct parts as [|p0 args]; [discriminate|].
  destruct ((str_upper p0 =? "EXIT") || (str_upper p0 =? "QUIT"));
    [discriminate|].
  destruct (str_upper p0 =? "PING").
  { intros H. injection H as <-. do 2 eexists.
    repeat split; try reflexivity; [simpl; tauto | discriminate |].
    intros store. do 2 eexists. split; [reflexivity | discriminate]. }
  destruct ((str_upper p0 =? "LOAN") && (List.length (p0 :: args) =? 5)%nat).
  { destruct args as [|u [|amount [|years [|rate [|x args]]]]]; try discriminate.
    unfold interactive_loan.
    destruct (float_of_str amount) as [a|] eqn:Ea; [|discriminate].
    destruct (int_of_str years) as [y|] eqn:Ey; [|discriminate].
    destruct (float_of_str rate) as [r|] eqn:Er; [|discriminate].
    cbn [bind]. intros H. injection H as <-. do 2 eexists.
    repeat split; try reflexivity; [simpl; tauto | |].
    - intros _. exists amount, years, rate, a, y, r. repeat split; assumption.
    - intros store. do 2 eexists. split; [reflexivity|]. auto. }
  destruct ((str_upper p0 =? "SET") && (3 <=? List.length (p0 :: args))%nat).
  { destruct args as [|key words]; [discriminate|].
    intros H. injection H as <-. do 2 eexists.
    repeat split; try reflexivity; [simpl; tauto | discriminate |].
    intros store. do 2 eexists. split; [reflexivity | discriminate]. }
  destruct ((str_upper p0 =? "GET") && (List.length (p0 :: args) =? 2)%nat).
  { destruct args as [|key words]; [discriminate|].
    intros H. injection H as <-. do 2 eexists.
    repeat split; try reflexivity; [simpl; tauto | discriminate |].
    intros store. unfold dispatch. cbn. unfold KVStore.get.
    destruct (dict_lookup store key); do 2 eexists;
      (split; [reflexivity|]); [discriminate|].
    intros msg E. injection E as <-. auto. }
  destruct ((str_upper p0 =? "DEL") && (List.length (p0 :: args) =? 2)%nat).
  { destruct args as [|key words]; [discriminate|].
    intros H. injection H as <-. do 2 eexists.
    repeat split; try reflexivity; [simpl; tauto | discriminate |].
    intros store. do 2 eexists. split; [reflexivity | discriminate]. }
  destruct ((str_upper p0 =? "KEYS") && (List.length (p0 :: args) =? 1)%nat).
  { intros H. injection H as <-. do 2 eexists.
    repeat split; try reflexivity; [simpl; tauto | discriminate |].
    intros store. do 2 eexists. split; [reflexivity | discriminate]. }
  destruct ((str_upper p0 =? "CLEAR") && (List.length (p0 :: args) =? 1)%nat);
    [|discriminate].
  intros H. injection H as <-. do 2 eexists.
  repeat split; try reflexivity; [simpl; tauto | discriminate |].
  intros store. do 2 eexists. split; [reflexivity | discriminate].
Qed.
End PromptFacts.

(** ** Failures seen from both ends *)

Section FailureFacts.
Context {rt : PyRuntime}.

(** X21.  A frame whose payload [json.loads] refuses keeps the connection
    open and in step: the handler answers with the error, logs it, and
    goes on reading after the payload. *)
Lemma malformed_payload_keeps_connection_in_step (peer : peername)
    (b3 b2 b1 b0 : byte) (body rest data : list byte) (e : ending)
    (err : exn) (store : KVStore.t) :
  HEADER.unpack [b3; b2; b1; b0] = Return (N.of_nat (List.length body)) ->
  (N.of_nat (List.length body) <= 10000000)%N ->
  json_loads body = Raise err ->
  err <> TimeoutError -> err <> IncompleteReadError ->
  write_frame (error_response (str_exn err)) = Return data ->
  handle_client peer (Reader ([b3; b2; b1; b0] ++ body ++ rest) e) store
  = let '(effects, store', out) := handle_client peer (Reader rest e) store in
    (Write data :: Log (LogReadError peer (str_exn err)) :: effects,
     store', out).
Proof.
  intros Hu Hle Hj Ht Hi Hw.
  apply (handle_client_read_error peer _ (Reader rest e) store err data);
    try assumption.
  rewrite <- Hj. now apply read_frame_of_frame.
Qed.

(** X22.  When the dispatch step raises on a request, the client that sent
    it with [send_request] gets no answer: the server closes the
    connection and the client's read fails with [IncompleteReadError]. *)
Lemma send_request_fails_when_dispatch_raises (peer : peername)
    (store store' : KVStore.t) (payload : value) (err : exn) :
  travels payload ->
  dispatch payload store = (Raise err, store') ->
  send_request (fun sent => fst (serve_connection peer store sent)) payload
  = Raise IncompleteReadError.
Proof.
  intros [Hj Hs] Hd.
  destruct (write_frame_ok payload) as (b3 & b2 & b1 & b0 & Hw & Hu);
    [eapply N.le_lt_trans; [exact Hs | reflexivity]|].
  assert (read_frame (Reader ([b3; b2; b1; b0] ++ json_dumps payload) PeerClosed)
          = (Return payload, Reader [] PeerClosed)) as Hread.
  { rewrite <- Hj.
    rewrite <- (app_nil_r (json_dumps payload)) at 1.
    now apply read_frame_of_frame. }
  unfold send_request. rewrite Hw. cbn [bind].
  unfold serve_connection, handle_client. cbn [client_loop].
  rewrite Hread, Hd. reflexivity.
Qed.
End FailureFacts.

(** ** These statements at concrete inputs, on the reference runtime *)

Lemma pipelined_requests_and_the_log_witness :
  let peer := ("127.0.0.1", 50000%Z) in
  let set := VDict [("cmd", VStr "SET"); ("key", VStr "a"); ("value", VInt 7)] in
  let get := VDict [("cmd", VStr "get"); ("key", VStr "a")] in
  let err := OtherError "OSError" "[Errno 28] No space left on device" in
  let fails := fun (file : JsonlLogger.t) (_ : log_record) =>
                 match file with [] => Some err | _ => None end in
  @handle_client_logging Ref.runtime fails peer
    (Reader (Ref.frame set ++ Ref.frame get ++ []) PeerClosed) KVStore.init []
  = ([Write (Ref.frame (ok_response [])); Close],
     [("a", VInt 7)], [], Uncaught err).
Proof.
  intros peer set get err fails.
  refine (proj2 (@pipelined_requests_and_the_log Ref.runtime fails peer set
                   get set get (ok_response [])
                   (ok_response [("value", VInt 7)])
                   (Ref.frame set) (Ref.frame get)
                   (Ref.frame (ok_response []))
                   (Ref.frame (ok_response [("value", VInt 7)])) [] PeerClosed
                   KVStore.init [("a", VInt 7)] [("a", VInt 7)] []
                   _ _ _ _ _ _ _ _ _ _) err _);
    try reflexivity; vm_compute; discriminate.
Defined.

(** The same two requests with a logger that takes every record. *)
Example pipelined_requests_logged :
  let peer := ("127.0.0.1", 50000%Z) in
  let set := VDict [("cmd", VStr "SET"); ("key", VStr "a"); ("value", VInt 7)] in
  let get := VDict [("cmd", VStr "get"); ("key", VStr "a")] in
  @handle_client_logging Ref.runtime (fun _ _ => None) peer
    (Reader (Ref.frame set ++ Ref.frame get) PeerClosed) KVStore.init []
  = ([Write (Ref.frame (ok_response []));
      Log (LogExchange peer set (ok_response []));
      Write (Ref.frame (ok_response [("value", VInt 7)]));
      Log (LogExchange peer get (ok_response [("value", VInt 7)]));
      Close],
     [("a", VInt 7)],
     [LogExchange peer set (ok_response []);
      LogExchange peer get (ok_response [("value", VInt 7)])],
     Finished).
Proof. vm_compute. reflexivity. Qed.

Lemma oversize_frame_resumes_after_header_witness :
  let peer := ("127.0.0.1", 50000%Z) in
  @handle_client Ref.runtime peer
    (Reader (Byte.x01 :: Byte.x00 :: Byte.x00 :: Byte.x00
               :: Ref.frame (VDict [("cmd", VStr "PING")])) PeerClosed)
    KVStore.init
  = ([Write (Ref.frame (error_response "invalid frame length"));
      Log (LogReadError peer "invalid frame length");
      Write (Ref.frame (ok_response [("reply", VStr "PONG")]));
      Log (LogExchange peer (VDict [("cmd", VStr "PING")])
             (ok_response [("reply", VStr "PONG")]));
      Close],
     KVStore.init, Finished).
Proof.
  intros peer.
  refine (@oversize_frame_resumes_after_header Ref.runtime peer Byte.x01
            Byte.x00 Byte.x00 Byte.x00
            (Ref.frame (VDict [("cmd", VStr "PING")]))
            (Ref.frame (error_response "invalid frame length")) PeerClosed
            16777216%N KVStore.init _ _ _);
    reflexivity.
Defined.

Lemma truncated_stream_closes_silently_witness :
  @handle_client Ref.runtime ("127.0.0.1", 50000%Z)
    (Reader [Byte.x00; Byte.x00] PeerClosed) [("a", VInt 1)]
  = ([Close], [("a", VInt 1)], Finished) /\
  @handle_client Ref.runtime ("127.0.0.1", 50000%Z)
    (Reader [Byte.x00; Byte.x00; Byte.x00; Byte.x09; Byte.x7b] PeerClosed)
    [("a", VInt 1)]
  = ([Close], [("a", VInt 1)], Finished).
Proof.
  destruct (@truncated_stream_closes_silently Ref.runtime
              ("127.0.0.1", 50000%Z) [("a", VInt 1)]) as [Hshort Hbody].
  split.
  - apply Hshort. simpl. lia.
  - apply (Hbody Byte.x00 Byte.x00 Byte.x00 Byte.x09 [Byte.x7b] 9%N);
      [reflexivity | discriminate | reflexivity].
Defined.

Lemma header_pack_unpack_witness :
  (exists hdr, HEADER.pack 35 = Return hdr /\ List.length hdr = HEADER.size /\
               HEADER.unpack hdr = Return 35%N) /\
  (exists msg, HEADER.pack 4294967296 = Raise (StructError msg)) /\
  (exists msg, HEADER.unpack [Byte.x00; Byte.x23] = Raise (StructError msg)).
Proof.
  destruct header_pack_unpack as (Hpack & _ & Hbig & Hshort).
  split; [apply Hpack; reflexivity|].
  split; [apply Hbig; discriminate | apply Hshort; discriminate].
Defined.

Lemma send_request_gets_the_dispatch_response_witness :
  @send_request Ref.runtime
    (fun sent =>
       fst (@serve_connection Ref.runtime ("127.0.0.1", 50000%Z)
              [("a", VStr "x")] sent))
    (VDict [("cmd", VStr "del"); ("key", VStr "a")])
  = Return (ok_response [("deleted", VBool true)]) /\
  exists sent,
    @write_frame Ref.runtime (VDict [("cmd", VStr "del"); ("key", VStr "a")])
    = Return sent /\
    snd (@serve_connection Ref.runtime ("127.0.0.1", 50000%Z)
           [("a", VStr "x")] sent)
    = [].
Proof.
  apply (@send_request_gets_the_dispatch_response Ref.runtime
           ("127.0.0.1", 50000%Z) [("a", VStr "x")] []
           (VDict [("cmd", VStr "del"); ("key", VStr "a")])
           (ok_response [("deleted", VBool true)])
           (ok_response [("deleted", VBool true)]));
    try reflexivity.
  split; [reflexivity | vm_compute; discriminate].
Defined.

Lemma value_set_on_one_connection_is_read_on_the_next_witness :
  let set := VDict [("cmd", VStr "SET"); ("key", VStr "a");
                    ("value", VStr "hello world")] in
  @send_request Ref.runtime
    (fun sent =>
       fst (@serve_connection Ref.runtime ("127.0.0.1", 50000%Z)
              KVStore.init sent)) set
  = Return (ok_response []) /\
  @kv_get_oneshot Ref.runtime
    (fun sent' =>
       fst (@serve_connection Ref.runtime ("127.0.0.1", 50001%Z)
              (snd (@serve_connection Ref.runtime ("127.0.0.1", 50000%Z)
                      KVStore.init (Ref.frame set)))
              sent'))
    "a"
  = Return (ok_response [("value", VStr "hello world")]).
Proof.
  intros set.
  apply (@value_set_on_one_connection_is_read_on_the_next Ref.runtime
           ("127.0.0.1", 50000%Z) ("127.0.0.1", 50001%Z) KVStore.init "a"
           "hello world" (Ref.frame set));
    try reflexivity;
    (split; [reflexivity | vm_compute; discriminate]).
Defined.

Lemma loan_oneshot_gets_the_payments_witness :
  @loan_oneshot Ref.runtime
    (fun sent =>
       fst (@serve_connection Ref.runtime ("127.0.0.1", 50000%Z)
              KVStore.init sent))
    "ann" 10000 5 6
  = Return (ok_response
              [("monthly_payment", VFloat 0x1.82a8f5c28f5c3p+7);
               ("total_payment", VFloat 0x1.6a7d70a3d70a4p+13)]).
Proof.
  apply (@loan_oneshot_gets_the_payments Ref.runtime ("127.0.0.1", 50000%Z)
           KVStore.init "ann" 10000 6 0x1.82a8f5c28f5c3p+7
           0x1.6a7d70a3d70a4p+13 5);
    try (split; [vm_compute; reflexivity | vm_compute; discriminate]).
  vm_compute. reflexivity.
Defined.

Lemma interactive_request_is_understood_witness :
  exists response store',
    @dispatch Ref.runtime
      (VDict [("cmd", VStr "SET"); ("key", VStr "a");
              ("value", VStr "hello world")]) KVStore.init
    = (Return response, store').
Proof.
  destruct (@interactive_request_is_understood Ref.runtime
              ["set"; "a"; "hello"; "world"]
              (VDict [("cmd", VStr "SET"); ("key", VStr "a");
                      ("value", VStr "hello world")]) eq_refl)
    as (d & cmd & _ & _ & _ & _ & H).
  destruct (H KVStore.init) as (response & store' & Hd & _).
  exists response, store'. exact Hd.
Defined.

(** The prompt on a LOAN line and on lines it refuses. *)
Example interactive_payload_examples :
  @interactive_payload Ref.runtime ["loan"; "ann"; "10000"; "5"; "6"]
  = Request (VDict [("cmd", VStr "LOAN"); ("username", VStr "ann");
                    ("loan_amount", VFloat 10000); ("years", VInt 5);
                    ("annual_rate", VFloat 6)]) /\
  @interactive_payload Ref.runtime ["loan"; "ann"; "10000"; "5"] = Invalid /\
  @interactive_payload Ref.runtime ["get"] = Invalid /\
  @interactive_payload Ref.runtime ["ping"; "now"]
  = Request (VDict [("cmd", VStr "PING")]) /\
  @interactive_payload Ref.runtime ["Quit"; "now"] = Bye /\
  @interactive_payload Ref.runtime ["set"; "k"; "a"; "b"]
  = Request (VDict [("cmd", VStr "SET"); ("key", VStr "k");
                    ("value", VStr "a b")]).
Proof. vm_compute. repeat split; reflexivity. Qed.

Lemma malformed_payload_keeps_connection_in_step_witness :
  let peer := ("127.0.0.1", 50000%Z) in
  @handle_client Ref.runtime peer
    (Reader ([Byte.x00; Byte.x00; Byte.x00; Byte.x02] ++ [Byte.x7b; Byte.x5d]
               ++ Ref.frame (VDict [("cmd", VStr "PING")])) PeerClosed)
    KVStore.init
  = ([Write (Ref.frame (error_response "Expecting value"));
      Log (LogReadError peer "Expecting value");
      Write (Ref.frame (ok_response [("reply", VStr "PONG")]));
      Log (LogExchange peer (VDict [("cmd", VStr "PING")])
             (ok_response [("reply", VStr "PONG")]));
      Close],
     KVStore.init, Finished).
Proof.
  intros peer.
  refine (@malformed_payload_keeps_connection_in_step Ref.runtime peer
            Byte.x00 Byte.x00 Byte.x00 Byte.x02 [Byte.x7b; Byte.x5d]
            (Ref.frame (VDict [("cmd", VStr "PING")]))
            (Ref.frame (error_response "Expecting value")) PeerClosed
            (ValueError "Expecting value") KVStore.init _ _ _ _ _ _);
    try reflexivity; discriminate.
Defined.

Lemma send_request_fails_when_dispatch_raises_witness :
  @send_request Ref.runtime
    (fun sent =>
       fst (@serve_connection Ref.runtime ("127.0.0.1", 50000%Z)
              KVStore.init sent))
    (VDict [("cmd", VInt 5)])
  = Raise IncompleteReadError.
Proof.
  apply (@send_request_fails_when_dispatch_raises Ref.runtime
           ("127.0.0.1", 50000%Z) KVStore.init KVStore.init
           (VDict [("cmd", VInt 5)])
           (AttributeError "'int' object has no attribute 'upper'"));
    [split; [reflexivity | vm_compute; discriminate] | reflexivity].
Defined.
